(** * projection-grid: the virtualised table view (src/js/vnext/layout/table-view.js)

    A shallow embedding of [TableView]: the header-config normaliser, the
    partial-update [set], the sticky-header positioner, the fixed-header
    width synchroniser and [indexOfElement], followed by the properties
    stated about them. *)

From Stdlib Require Import QArith Qabs Qminmax Lqa.
From stdpp Require Import gmap strings list fin_maps.

Set Warnings "-register-all".
Local Open Scope string_scope.
Local Open Scope list_scope.

(** ** JavaScript values *)

Module JS.

(** A JavaScript number: the three non-finite values, or a finite one,
    which is kept as an exact rational. *)
Inductive number : Type :=
| NaN
| PosInfinity
| NegInfinity
| Finite (q : Q).

(** The values the view receives.  A function is represented by the value
    its call without arguments returns (the only way the view uses one);
    an object is the finite map of its properties. *)
Inductive value : Type :=
| VUndefined
| VNull
| VBool (b : bool)
| VNumber (n : number)
| VString (s : string)
| VFunction (ret : value)
| VArray (items : list value)
| VObject (props : gmap string value).

(** [obj[key]]: a missing property reads as [undefined]. *)
Definition get (o : gmap string value) (key : string) : value :=
  default VUndefined (o !! key).

Definition num (q : Q) : value := VNumber (Finite q).

(** The named properties of a value: those of an object; the other values
    of the model carry none. *)
Definition props (v : value) : gmap string value :=
  match v with
  | VObject o => o
  | _ => ∅
  end.

(** [v.key] *)
Definition prop (v : value) (key : string) : value := get (props v) key.

(** Reading a property of [undefined] or [null] throws a TypeError. *)
Definition nullish (v : value) : bool :=
  match v with
  | VUndefined | VNull => true
  | _ => false
  end.

(** [v === 'lit'] for a string literal. *)
Definition is_str (lit : string) (v : value) : bool :=
  match v with
  | VString s => String.eqb s lit
  | _ => false
  end.

End JS.
Import JS.

(** ** The underscore helpers the view calls *)

Module Underscore.

Definition isString (v : value) : bool :=
  match v with VString _ => true | _ => false end.

Definition isFunction (v : value) : bool :=
  match v with VFunction _ => true | _ => false end.

(** Functions, arrays and objects are objects; [null] and the primitives
    are not. *)
Definition isObject (v : value) : bool :=
  match v with
  | VFunction _ | VArray _ | VObject _ => true
  | _ => false
  end.

Definition isUndefined (v : value) : bool :=
  match v with VUndefined => true | _ => false end.

(** [_.contains(list, v)] for a list of string literals: strict equality,
    so only a string can be found. *)
Definition contains (l : list string) (v : value) : bool :=
  match v with
  | VString s => existsb (String.eqb s) l
  | _ => false
  end.

(** [_.pick(obj, keys)]: a fresh object with the listed keys that are
    [in obj], each with the value it has there ([undefined] included). *)
Definition pick (o : gmap string value) (keys : list string)
  : gmap string value :=
  foldr (fun key acc =>
           match o !! key with
           | Some v => <[key := v]> acc
           | None => acc
           end) ∅ keys.

(** [_.extend(dst, src)]: every property of [src] is assigned on [dst]. *)
Definition extend (dst src : gmap string value) : gmap string value :=
  src ∪ dst.

(** [_.isFunction(v) ? v.call(obj) : v] *)
Definition called (v : value) : value :=
  match v with
  | VFunction ret => ret
  | _ => v
  end.

(** [_.result(obj, prop, fallback)]: the property, or the fallback when it
    is [undefined]; a function is called on the object. *)
Definition result (o : gmap string value) (prop : string) (fallback : value)
  : value :=
  let v := get o prop in
  let v := if isUndefined v then fallback else v in
  called v.

Section IsFinite.

(** [_.isFinite(v)] is [isFinite(v) && !isNaN(parseFloat(v))]: on a
    number it tells whether it is finite, on [undefined], [null] and the
    booleans it is false.  On the other values the answer rests on
    JavaScript's coercion of the value to a number (a numeric string is
    accepted), which is left as a parameter. *)
Variable coercesToFinite : value -> bool.

Definition isFinite (v : value) : bool :=
  match v with
  | VNumber (Finite _) => true
  | VNumber _ => false
  | VUndefined | VNull | VBool _ => false
  | VString _ | VFunction _ | VArray _ | VObject _ => coercesToFinite v
  end.

End IsFinite.

(** The coercion that accepts no value: [isFinite noCoercion] holds of the
    finite numbers only. *)
Definition noCoercion (v : value) : bool := false.

End Underscore.

(** ** The header configuration normaliser *)

Definition HEADER_TYPES : list string := ["static"; "fixed"; "sticky"].

Section Normalizer.

Variable coercesToFinite : value -> bool.

Local Abbreviation isFinite := (Underscore.isFinite coercesToFinite).

(** Lines 60-69: the header read off the configuration. *)
Definition readHeaderConfig (config : value) : gmap string value :=
  let header : gmap string value := ∅ in
  if Underscore.isString config then
    <["type" := config]> header
  else if Underscore.isFunction config || isFinite config then
    <["offset" := config]> (<["type" := VString "sticky"]> header)
  else if Underscore.isObject config
          && Underscore.isString (prop config "type") then
    Underscore.extend header
      (Underscore.pick (props config) ["type"; "offset"])
  else header.

(** Lines 71-73: an unknown type becomes ['static']. *)
Definition resolveHeaderType (header : gmap string value)
  : gmap string value :=
  if negb (Underscore.contains HEADER_TYPES (get header "type")) then
    <["type" := VString "static"]> header
  else header.

(** Lines 75-77: a sticky header whose offset does not resolve gets 0. *)
Definition resolveHeaderOffset (header : gmap string value)
  : gmap string value :=
  if is_str "sticky" (get header "type")
     && negb (isFinite (Underscore.result header "offset" VUndefined)) then
    <["offset" := num 0]> header
  else header.

Definition _normalizeHeaderConfig (config : value) : gmap string value :=
  resolveHeaderOffset (resolveHeaderType (readHeaderConfig config)).

End Normalizer.

(** ** The table state and [set] *)

Definition STATE_OPTIONS : list string :=
  ["cols"; "headRows"; "bodyRows"; "footRows"; "events"].

(** How a method call ends; either way the view is left as mutated so far. *)
Inductive outcome (A : Type) : Type :=
| Returned (a : A)
| Threw (a : A).
Arguments Returned {A} a.
Arguments Threw {A} a.

Definition after {A : Type} (o : outcome A) : A :=
  match o with
  | Returned a => a
  | Threw a => a
  end.

Definition returned {A : Type} (o : outcome A) : bool :=
  match o with
  | Returned _ => true
  | Threw _ => false
  end.

(** The data source handed to the list view: the [{length, slice}] view
    closed over the body rows. *)
Module Items.

Record t : Type := Over { bodyRows : value }.

Definition length (it : t) : option nat :=
  match bodyRows it with
  | VArray rows => Some (List.length rows)
  | _ => None
  end.

(** [slice(start, stop)]: each row of the range wrapped as [{row}]. *)
Definition slice (it : t) (start stop : nat) : option (list value) :=
  match bodyRows it with
  | VArray rows =>
      Some (map (fun row => VObject {[ "row" := row ]})
                (take (stop - start) (drop start rows)))
  | _ => None
  end.

End Items.

(** The object [set] passes to the list view; a key that is not assigned
    is [None]. *)
Record ListState : Type := {
  items : option Items.t;
  events : option value;
}.

(** The view as [set] sees it: its state, the state last rendered into the
    column group, the number of header and footer redraws, and the
    arguments of the calls made to [_listView.set], oldest first. *)
Record TableView : Type := {
  _state : gmap string value;
  columnGroup : gmap string value;
  headerRedraws : nat;
  footerRedraws : nat;
  listViewSets : list ListState;
}.

(** The state [initialize] installs. *)
Definition initialState : gmap string value :=
  <["cols" := VArray []]> (<["headRows" := VArray []]>
  (<["bodyRows" := VArray []]> (<["footRows" := VArray []]>
  (<["events" := VObject ∅]> ∅)))).

Definition set (this : TableView) (state : gmap string value)
  : outcome TableView :=
  let isSet key := negb (Underscore.isUndefined (get state key)) in
  let merged := Underscore.extend (_state this)
                  (Underscore.pick state STATE_OPTIONS) in
  let this1 := {| _state := merged;
                  columnGroup := columnGroup this;
                  headerRedraws := headerRedraws this;
                  footerRedraws := footerRedraws this;
                  listViewSets := listViewSets this |} in
  let bodyRows := get merged "bodyRows" in
  if isSet "bodyRows" && nullish bodyRows then
    (* bodyRows.length on null *)
    Threw this1
  else
    let listState :=
      {| items := if isSet "bodyRows" then Some (Items.Over bodyRows)
                  else None;
         events := if isSet "events" then Some (get state "events")
                   else None |} in
    Returned {| _state := merged;
                columnGroup := merged;
                headerRedraws := S (headerRedraws this);
                footerRedraws := S (footerRedraws this);
                listViewSets := (listViewSets this ++ [listState])%list |}.

(** The list states [set] handed to the list view during one call. *)
Definition forwarded (before after_ : TableView) : list ListState :=
  drop (List.length (listViewSets before)) (listViewSets after_).


(** ** Inline styles and geometry *)

Module Css.

(** A value given to jQuery's [css]: the empty string, a keyword such as
    ['block'], or a number of pixels. *)
Inductive value : Type :=
| Empty
| Keyword (s : string)
| Px (q : Q).

(** Assigning the empty string removes the inline property. *)
Definition assign (style : gmap string value) (kv : string * value)
  : gmap string value :=
  match kv.2 with
  | Empty => delete kv.1 style
  | v => <[kv.1 := v]> style
  end.

(** [$el.css({...})]: the properties are assigned in the order written. *)
Definition css (style : gmap string value) (props : list (string * value))
  : gmap string value :=
  foldl assign style props.

End Css.

(** A rectangle in viewport coordinates, as [getBoundingClientRect] and the
    [outer] box of [getMetrics] give it. *)
Module Box.
Record t : Type := Make { top : Q; left : Q; width : Q; height : Q }.
End Box.

Module Size.
Record t : Type := Make { width : Q; height : Q }.
End Size.

(** [a < b] and [a >= b] on numbers. *)
Definition Qltb (a b : Q) : bool := negb (Qle_bool b a).
Definition Qgeb (a b : Q) : bool := Qle_bool b a.

(** ** The sticky header positioner *)

(** What one tick reads from the page: whether the root element is visible,
    the viewport's outer box, the number the header's offset resolves to,
    the container's bounding rectangle, the heights of the sticky header
    and of the table, and the width the container takes once the header
    and the table are left to lay out freely. *)
Record Sample : Type := {
  visible : bool;
  metricsVP : Box.t;
  offset : Q;
  rectContainer : Box.t;
  stickyHeaderHeight : Q;
  tableHeight : Q;
  tableContainerWidth : Q;
}.

(** What the positioner owns: the inline styles of the sticky header, of
    its filler and of the table, and the viewport size of the last width
    recomputation. *)
Record StickyState : Type := {
  stickyHeader : gmap string Css.value;
  stickyHeaderFiller : gmap string Css.value;
  table : gmap string Css.value;
  viewportSize : Size.t;
}.

(** The state [_hookUpStickyHeader] starts from, over the styles found. *)
Definition hookedUp (header filler tbl : gmap string Css.value)
  : StickyState :=
  {| stickyHeader := header;
     stickyHeaderFiller := filler;
     table := tbl;
     viewportSize := Size.Make 0 0 |}.

(** [resize] of lines 254-256. *)
Definition resize (s : Sample) (st : StickyState) : bool :=
  let deltaWidth :=
    Qabs (Box.width (metricsVP s) - Size.width (viewportSize st)) in
  let deltaHeight :=
    Qabs (Box.height (metricsVP s) - Size.height (viewportSize st)) in
  Qgeb deltaWidth 1 || Qgeb deltaHeight 1.

Definition adjustStickyHeader (isWindow : bool) (s : Sample)
  (st : StickyState) : StickyState :=
  if negb (visible s) then st
  else
    let topVP := Box.top (metricsVP s) in
    let offset := offset s in
    let topCur := Box.top (rectContainer s) in
    if isWindow then
      let sticky := Qltb topCur (topVP + offset) in
      let filler :=
        Css.css (stickyHeaderFiller st)
          [("display", Css.Keyword (if sticky then "block" else "none"));
           ("height", if sticky then Css.Px (stickyHeaderHeight s)
                      else Css.Empty)] in
      let style :=
        [("position", Css.Keyword (if sticky then "fixed" else "static"));
         ("top", if sticky then Css.Px (topVP + offset) else Css.Empty);
         ("left", if sticky then Css.Px (Box.left (rectContainer s))
                  else Css.Empty)] in
      if resize s st then
        let size := Size.Make (Box.width (metricsVP s))
                              (Box.height (metricsVP s)) in
        let header := Css.css (stickyHeader st)
                        [("width", Css.Keyword "auto")] in
        let tbl := Css.css (table st) [("width", Css.Keyword "auto")] in
        let width := tableContainerWidth s in
        let style := (style ++ [("width", Css.Px width)])%list in
        let tbl := Css.css tbl [("width", Css.Px width)] in
        {| stickyHeader := Css.css header style;
           stickyHeaderFiller := filler;
           table := tbl;
           viewportSize := size |}
      else
        {| stickyHeader := Css.css (stickyHeader st) style;
           stickyHeaderFiller := filler;
           table := table st;
           viewportSize := viewportSize st |}
    else
      {| stickyHeader :=
           Css.css (stickyHeader st)
             [("position", Css.Keyword "relative");
              ("top", Css.Px (Qmin (Qmax (topVP + offset - topCur) 0)
                                   (tableHeight s)))];
         stickyHeaderFiller :=
           Css.css (stickyHeaderFiller st) [("display", Css.Keyword "none")];
         table := table st;
         viewportSize := viewportSize st |}.

(** The two states of the header, as the styles show them: engaged at
    [top], the filler is shown and the header is out of the flow at that
    top; disengaged, the filler is hidden and the header is in the flow. *)
Definition engaged (st : StickyState) (top : Q) : Prop :=
  stickyHeaderFiller st !! "display" = Some (Css.Keyword "block")
  ∧ stickyHeader st !! "position" = Some (Css.Keyword "fixed")
  ∧ stickyHeader st !! "top" = Some (Css.Px top).

Definition disengaged (st : StickyState) : Prop :=
  stickyHeaderFiller st !! "display" = Some (Css.Keyword "none")
  ∧ stickyHeader st !! "position" = Some (Css.Keyword "static")
  ∧ stickyHeader st !! "top" = None.

(** [clamp(x, lo, hi)] as the specification words it: [x] brought back to
    the nearer bound when it lies outside [lo, hi]. *)
Definition clamp (x lo hi : Q) : Q :=
  if Qltb x lo then lo else if Qltb hi x then hi else x.

(** The ticks of a run, oldest first: every scroll, resize and redraw
    notification calls the same handler. *)
Definition ticks (isWindow : bool) (samples : list Sample)
  (st : StickyState) : StickyState :=
  foldl (fun st s => adjustStickyHeader isWindow s st) st samples.

(** ** The fixed header width synchroniser *)

(** What the redraw handler measures: the client widths of the viewport and
    of the root element, and the offset width of the body table. *)
Record Widths : Type := {
  viewportClientWidth : Q;
  elClientWidth : Q;
  tableOffsetWidth : Q;
}.

(** The inline styles of the root element and of the fixed header. *)
Record FixedState : Type := {
  el : gmap string Css.value;
  fixedHeader : gmap string Css.value;
}.

(** The [didRedraw] handler of lines 318-326. *)
Definition didRedrawFixed (m : Widths) (st : FixedState) : FixedState :=
  let widthViewport := viewportClientWidth m in
  let widthContainer := elClientWidth m in
  let widthScrollbar := (widthContainer - widthViewport)%Q in
  let widthTable := tableOffsetWidth m in
  {| el := Css.css (el st) [("width", Css.Px (widthTable + widthScrollbar)%Q)];
     fixedHeader := Css.css (fixedHeader st) [("width", Css.Px widthTable)] |}.



(** ** The rendered document and [indexOfElement] *)

Module Dom.

(** An element with its tag name (in lower case) and its child elements.
    An element of the page is named by its path from the document root:
    the position, among its sibling elements, of each element on the way
    down.  A path that leads nowhere is a node that is not in the page. *)
Inductive node : Type :=
| Element (tagName : string) (children : list node).

Definition tagName (n : node) : string :=
  match n with Element t _ => t end.

Definition children (n : node) : list node :=
  match n with Element _ c => c end.

Fixpoint at_ (path : list nat) (n : node) : option node :=
  match path with
  | [] => Some n
  | i :: rest =>
      match children n !! i with
      | Some child => at_ rest child
      | None => None
      end
  end.

(** The element at [path] matches the tag selector [sel]. *)
Definition matches (doc : node) (sel : string) (path : list nat) : bool :=
  match at_ path doc with
  | Some n => String.eqb (tagName n) sel
  | None => false
  end.

(** The second argument of jQuery's [closest]: the documented DOM element,
    or, as the view passes it, a jQuery collection. *)
Inductive context : Type :=
| ContextElement (path : list nat)
| ContextCollection (paths : list (list nat)).

(** [cur !== context] compares the node with the argument itself, so only
    an element given as context is ever equal to [cur]. *)
Definition differs (cur : list nat) (ctx : context) : bool :=
  match ctx with
  | ContextElement path => negb (bool_decide (cur = path))
  | ContextCollection _ => true
  end.

(** The loop of [closest], [for (cur = el; cur && cur !== context;
    cur = cur.parentNode)], over the reversed path of [cur]: its head is
    the position of [cur], its tail the reversed path of the parent. *)
Fixpoint closestFrom (doc : node) (sel : string) (ctx : context)
  (rcur : list nat) : option (list nat) :=
  let cur := rev rcur in
  if negb (differs cur ctx) then None
  else if matches doc sel cur then Some cur
  else
    match rcur with
    | [] => None
    | _ :: rparent => closestFrom doc sel ctx rparent
    end.

(** [$set.closest(sel, ctx)] on a set of at most one element. *)
Definition closest (doc : node) (sel : string) (ctx : context)
  (set : option (list nat)) : option (list nat) :=
  match set with
  | Some el => closestFrom doc sel ctx (rev el)
  | None => None
  end.

(** [$root.find(el)] for a node [el]: the node itself when it is in the
    page strictly below [root], the empty set otherwise. *)
Definition find (doc : node) (root el : list nat) : option (list nat) :=
  if bool_decide (is_Some (at_ el doc))
     && bool_decide (root `prefix_of` el)
     && negb (bool_decide (el = root))
  then Some el else None.

(** [$el.index()]: the number of element siblings before the element. *)
Definition index (path : list nat) : nat := List.last path 0%nat.

End Dom.

(** The list view as [indexOfElement] uses it: the page, the root element
    [$el], the [$container] of the rows, and [indexFirst]. *)
Record ListView : Type := {
  document : Dom.node;
  root : list nat;
  container : list nat;
  indexFirst : Z;
}.

(** [null] is [None]. *)
Definition indexOfElement (_listView : ListView) (el : list nat)
  : option Z :=
  let elTr :=
    Dom.closest (document _listView) "tr"
      (Dom.ContextCollection [container _listView])
      (Dom.find (document _listView) (root _listView) el) in
  match elTr with
  | Some tr => Some (Z.of_nat (Dom.index tr) + indexFirst _listView - 1)%Z
  | None => None
  end.


(** ** The scrolling configuration, the constructor and [render] *)

(** A destructuring default, [{ key = d }]: it applies when the property
    is [undefined]. *)
Definition orDefault (v d : value) : value :=
  if Underscore.isUndefined v then d else v.

Section Construction.

Variable coercesToFinite : value -> bool.

(** Lines 123-137.  Destructuring [null] or [undefined] throws a TypeError,
    which is [None]. *)
Definition _normalizeScrollingConfig (config : value)
  : option (gmap string value) :=
  if nullish config then None
  else
    let viewport := prop config "viewport" in
    let virtualized := orDefault (prop config "virtualized") (VBool false) in
    let header := orDefault (prop config "header") (VString "static") in
    let scrolling : gmap string value :=
      <["virtualized" := virtualized]> (<["viewport" := viewport]> ∅) in
    let scrolling :=
      <["header" := VObject (_normalizeHeaderConfig coercesToFinite header)]>
        scrolling in
    if is_str "fixed" (prop (get scrolling "header") "type") then
      Some (<["viewport" := VString ".viewport"]> scrolling)
    else Some scrolling.

(** What [initialize] sets up: the properties, the view with its empty
    state, and the options the list view is created with. *)
Record Constructed : Type := {
  _props : gmap string value;
  view : TableView;
  listViewOptions : gmap string value;
}.

(** The view [initialize] starts from. *)
Definition initialView : TableView :=
  {| _state := initialState;
     columnGroup := ∅;
     headerRedraws := 0;
     footerRedraws := 0;
     listViewSets := [] |}.

(** Lines 29-57. *)
Definition initialize (options : value) : option Constructed :=
  if nullish options then None
  else
    let scrolling := orDefault (prop options "scrolling") (VObject ∅) in
    let classes := orDefault (prop options "classes") (VArray []) in
    match _normalizeScrollingConfig scrolling with
    | None => None
    | Some scrolling =>
        Some {| _props := <["classes" := classes]>
                            (<["scrolling" := VObject scrolling]> ∅);
                view := initialView;
                listViewOptions :=
                  <["viewport" := get scrolling "viewport"]>
                    (<["virtualized" := get scrolling "virtualized"]> ∅) |}
    end.

End Construction.

(** [this._props.scrolling.header] and the getter [headerType]. *)
Definition header (this : Constructed) : gmap string value :=
  props (prop (get (_props this) "scrolling") "header").

Definition headerType (this : Constructed) : value :=
  get (header this) "type".

(** The three layouts and the steps of the callback given to the list
    view's [render]. *)
Inductive Template : Type :=
| tableStaticTemplate
| tableFixedTemplate
| tableStickyTemplate.

Inductive Step : Type :=
| RenderColumnGroup
| RenderHeader
| HookUpStickyHeader
| RenderFooter
| Callback.

(** A pipeline: the template the list view is set with, the steps run once
    it is rendered, and whether the width handler is put on [didRedraw]. *)
Record Pipeline : Type := {
  listTemplate : Template;
  mount : list Step;
  syncsWidth : bool;
}.

Definition _renderStatic : Pipeline :=
  {| listTemplate := tableStaticTemplate;
     mount := [RenderColumnGroup; RenderHeader; RenderFooter; Callback];
     syncsWidth := false |}.

Definition _renderFixed : Pipeline :=
  {| listTemplate := tableFixedTemplate;
     mount := [RenderColumnGroup; RenderHeader; RenderFooter; Callback];
     syncsWidth := true |}.

Definition _renderSticky : Pipeline :=
  {| listTemplate := tableStickyTemplate;
     mount := [RenderColumnGroup; RenderHeader; HookUpStickyHeader;
               RenderFooter; Callback];
     syncsWidth := false |}.

(** The [switch] of lines 348-359: ['fixed'] and ['sticky'] have their
    case, every other type runs the static one. *)
Definition render (this : Constructed) : Pipeline :=
  let header := header this in
  if is_str "fixed" (get header "type") then _renderFixed
  else if is_str "sticky" (get header "type") then _renderSticky
  else _renderStatic.

Definition hooksSticky (p : Pipeline) : bool :=
  existsb (λ step, match step with HookUpStickyHeader => true | _ => false end)
          (mount p).

(** ** Runs of updates and the rows of an items view *)

(** The calls [set(u1)], [set(u2)], ... in turn, each on the view the
    one before left, whether it returned or threw. *)
Definition sets (updates : list (gmap string value)) (this : TableView)
  : TableView :=
  foldl (λ this state, after (set this state)) this updates.

(** The row an item of a slice wraps: [item.row]. *)
Definition rowOf (item : value) : value := prop item "row".

(** ** Sample inputs *)

(** A tick at a page whose viewport is 1280 by 720, with the container top
    at [containerTop], the header 32 high, the table 4000 high and the
    container 960 wide, under an offset of 20. *)
Definition sampleAt (isVisible : bool) (containerTop : Q) : Sample :=
  {| visible := isVisible;
     metricsVP := Box.Make 0 0 1280 720;
     offset := 20;
     rectContainer := Box.Make containerTop 8 960 4000;
     stickyHeaderHeight := 32;
     tableHeight := 4000;
     tableContainerWidth := 960 |}.

(** Constructor options: a fixed header with a viewport asked for, and a
    header given by a number. *)
Definition fixedOptions : value :=
  VObject {[ "scrolling" :=
               VObject (<["header" := VString "fixed"]>
                          {[ "viewport" := VString "#pane" ]}) ]}.

Definition stickyOptions : value :=
  VObject {[ "scrolling" := VObject {[ "header" := num 24 ]} ]}.

(** The positioner as hooked up on a page without inline styles. *)
Definition freshSticky : StickyState := hookedUp ∅ ∅ ∅.

(** A page with a static-header table: the root [div] of the list view at
    [0;0], its table with a column group, a header row, and the container
    [tbody] at [0;0;0;2] holding the top filler, two materialised rows and
    the bottom filler; the rows from 40 on are materialised. *)
Definition samplePage : Dom.node :=
  Dom.Element "html"
    [Dom.Element "body"
       [Dom.Element "div"
          [Dom.Element "table"
             [Dom.Element "colgroup" [];
              Dom.Element "thead" [Dom.Element "tr" [Dom.Element "th" []]];
              Dom.Element "tbody"
                [Dom.Element "tr" [];
                 Dom.Element "tr"
                   [Dom.Element "td" [Dom.Element "span" []]];
                 Dom.Element "tr" [Dom.Element "td" []];
                 Dom.Element "tr" []]]]]].

Definition sampleListView : ListView :=
  {| document := samplePage;
     root := [0; 0]%nat;
     container := [0; 0; 0; 2]%nat;
     indexFirst := 40 |}.

(** A part of JavaScript's coercion that is beyond doubt, for the examples:
    a string of one to fifteen decimal digits converts to the number it
    writes, and an array whose only item is a finite number converts, by
    way of the string of that number, to the number itself; so
    [_.isFinite] accepts both.  Every other value is refused here, which
    JavaScript does not always do. *)
Definition isDigit (c : Ascii.ascii) : bool :=
  Nat.leb 48 (Ascii.nat_of_ascii c) && Nat.leb (Ascii.nat_of_ascii c) 57.

Fixpoint allDigits (s : string) : bool :=
  match s with
  | EmptyString => true
  | String c rest => isDigit c && allDigits rest
  end.

Definition knownCoercion (v : value) : bool :=
  match v with
  | VString s =>
      Nat.leb 1 (String.length s) && Nat.leb (String.length s) 15
      && allDigits s
  | VArray [VNumber (Finite _)] => true
  | _ => false
  end.

(** The sample page with a table nested in the cell of its second
    materialised row, the child 2 of the container: the nested table, at
    [0;0;0;2;2;0;0], has a body with two rows of one cell each. *)
Definition nestedPage : Dom.node :=
  Dom.Element "html"
    [Dom.Element "body"
       [Dom.Element "div"
          [Dom.Element "table"
             [Dom.Element "colgroup" [];
              Dom.Element "thead" [Dom.Element "tr" [Dom.Element "th" []]];
              Dom.Element "tbody"
                [Dom.Element "tr" [];
                 Dom.Element "tr"
                   [Dom.Element "td" [Dom.Element "span" []]];
                 Dom.Element "tr"
                   [Dom.Element "td"
                      [Dom.Element "table"
                         [Dom.Element "tbody"
                            [Dom.Element "tr" [Dom.Element "td" []];
                             Dom.Element "tr" [Dom.Element "td" []]]]]];
                 Dom.Element "tr" []]]]]].

Definition nestedListView : ListView :=
  {| document := nestedPage;
     root := [0; 0]%nat;
     container := [0; 0; 0; 2]%nat;
     indexFirst := 40 |}.

(** * Properties *)

(** ** The definitions at work *)

Example normalize_fixed :
  _normalizeHeaderConfig Underscore.noCoercion (VString "fixed")
  = {[ "type" := VString "fixed" ]}.
Proof. reflexivity. Qed.

Example normalize_number :
  _normalizeHeaderConfig Underscore.noCoercion (num 24)
  = <["type" := VString "sticky"]> {[ "offset" := num 24 ]}.
Proof. by apply map_eq; intros k; vm_compute. Qed.

Example normalize_sticky_without_offset :
  get (_normalizeHeaderConfig Underscore.noCoercion
         (VObject {[ "type" := VString "sticky" ]})) "offset"
  = num 0.
Proof. reflexivity. Qed.

Example normalize_object_with_function :
  let config :=
    VObject (<["type" := VString "sticky"]>
               (<["offset" := VFunction (num 12)]>
                  {[ "other" := VBool true ]})) in
  _normalizeHeaderConfig Underscore.noCoercion config !! "offset"
  = Some (VFunction (num 12))
  ∧ _normalizeHeaderConfig Underscore.noCoercion config !! "other" = None.
Proof. split; reflexivity. Qed.

Example normalize_null :
  _normalizeHeaderConfig Underscore.noCoercion VNull
  = {[ "type" := VString "static" ]}.
Proof. reflexivity. Qed.

Example set_body_rows :
  let this := {| _state := initialState; columnGroup := ∅;
                 headerRedraws := 0; footerRedraws := 0;
                 listViewSets := [] |} in
  let rows := VArray [VString "r0"; VString "r1"; VString "r2"] in
  listViewSets (after (set this {[ "bodyRows" := rows ]}))
  = [{| items := Some (Items.Over rows); events := None |}]
  ∧ Items.slice (Items.Over rows) 1 3
    = Some [VObject {[ "row" := VString "r1" ]};
            VObject {[ "row" := VString "r2" ]}].
Proof. split; reflexivity. Qed.

Example set_null_body_rows_throws :
  let this := {| _state := initialState; columnGroup := ∅;
                 headerRedraws := 0; footerRedraws := 0;
                 listViewSets := [] |} in
  returned (set this {[ "bodyRows" := VNull ]}) = false
  ∧ get (_state (after (set this {[ "bodyRows" := VNull ]}))) "bodyRows"
    = VNull.
Proof. split; reflexivity. Qed.

Example sticky_tick_engaged :
  let st := adjustStickyHeader true (sampleAt true (-100)) freshSticky in
  stickyHeaderFiller st !! "height" = Some (Css.Px 32)
  ∧ stickyHeader st !! "left" = Some (Css.Px 8)
  ∧ stickyHeader st !! "width" = Some (Css.Px 960).
Proof. repeat split; reflexivity. Qed.

Example sticky_tick_back_in_flow :
  let st := ticks true [sampleAt true (-100); sampleAt true 300] freshSticky in
  stickyHeaderFiller st !! "height" = None
  ∧ stickyHeader st !! "position" = Some (Css.Keyword "static")
  ∧ stickyHeader st !! "left" = None
  ∧ stickyHeader st !! "width" = Some (Css.Px 960).
Proof. repeat split; reflexivity. Qed.

Example fixed_redraw_with_scrollbar :
  let st := didRedrawFixed
              {| viewportClientWidth := 785; elClientWidth := 800;
                 tableOffsetWidth := 800 |}
              {| el := ∅; fixedHeader := ∅ |} in
  fixedHeader st !! "width" = Some (Css.Px 800)
  ∧ ∃ w, el st !! "width" = Some (Css.Px w) ∧ w == 815.
Proof. split; [reflexivity|]. eexists. split; reflexivity. Qed.

Example indexOfElement_second_row :
  indexOfElement sampleListView [0; 0; 0; 2; 2; 0]%nat = Some 41%Z.
Proof. reflexivity. Qed.

Example indexOfElement_outside :
  indexOfElement sampleListView [0]%nat = None.
Proof. reflexivity. Qed.

(** ** Objects *)

Lemma get_insert (o : gmap string value) (k k' : string) (v : value) :
  get (<[k := v]> o) k' = if decide (k = k') then v else get o k'.
Proof.
  unfold get. rewrite lookup_insert. by case_decide.
Qed.

Lemma get_empty (k : string) : get ∅ k = VUndefined.
Proof. unfold get. by rewrite lookup_empty. Qed.

Lemma lookup_pick (o : gmap string value) (keys : list string) (k : string) :
  Underscore.pick o keys !! k = if decide (k ∈ keys) then o !! k else None.
Proof.
  induction keys as [|key keys IH].
  - rewrite decide_False by apply not_elem_of_nil. apply lookup_empty.
  - change (Underscore.pick o (key :: keys)) with
      (match o !! key with
       | Some v => <[key := v]> (Underscore.pick o keys)
       | None => Underscore.pick o keys
       end).
    destruct (decide (k = key)) as [->|Hne].
    + rewrite decide_True by apply list_elem_of_here.
      destruct (o !! key) eqn:E.
      * by rewrite lookup_insert_eq.
      * rewrite IH. by case_decide.
    + assert (k ∈ key :: keys ↔ k ∈ keys) as Hiff.
      { rewrite elem_of_cons. intuition congruence. }
      assert (Underscore.pick o keys !! k =
              if decide (k ∈ key :: keys) then o !! k else None) as IH'.
      { rewrite IH. destruct (decide (k ∈ keys)) as [Hin|Hnin].
        - by rewrite decide_True by (by apply Hiff).
        - by rewrite decide_False by (by rewrite Hiff). }
      destruct (o !! key); [|done].
      by rewrite lookup_insert_ne.
Qed.

Lemma lookup_extend (dst src : gmap string value) (k : string) :
  Underscore.extend dst src !! k =
  match src !! k with Some v => Some v | None => dst !! k end.
Proof.
  unfold Underscore.extend. rewrite lookup_union.
  destruct (src !! k), (dst !! k); done.
Qed.

Lemma get_extend_pick (dst o : gmap string value) (keys : list string)
  (k : string) :
  get (Underscore.extend dst (Underscore.pick o keys)) k =
  if decide (k ∈ keys) then
    match o !! k with Some v => v | None => get dst k end
  else get dst k.
Proof.
  unfold get. rewrite lookup_extend, lookup_pick.
  case_decide; [|done]. by destruct (o !! k).
Qed.

(** ** The normaliser *)

Lemma contains_spec (l : list string) (v : value) :
  Underscore.contains l v = true ↔ ∃ s, v = VString s ∧ s ∈ l.
Proof.
  destruct v; simpl; try (split; [done|by intros (? & ? & ?)]).
  rewrite existsb_exists. split.
  - intros (x & Hin & Heq). apply String.eqb_eq in Heq as ->.
    exists x. split; [done|]. by apply list_elem_of_In.
  - intros (x & [= ->] & Hin). exists x. split.
    + by apply list_elem_of_In.
    + apply String.eqb_refl.
Qed.


Lemma resolveHeaderType_valid (header : gmap string value) :
  Underscore.contains HEADER_TYPES (get (resolveHeaderType header) "type")
  = true.
Proof.
  unfold resolveHeaderType.
  destruct (Underscore.contains HEADER_TYPES (get header "type")) eqn:E;
    simpl; [done|].
  by rewrite get_insert, decide_True.
Qed.

Lemma resolveHeaderOffset_type coerces (header : gmap string value) :
  get (resolveHeaderOffset coerces header) "type" = get header "type".
Proof.
  unfold resolveHeaderOffset.
  destruct (_ && _); [|done].
  by rewrite get_insert, decide_False.
Qed.

Lemma normalized_type coerces (config : value) :
  get (_normalizeHeaderConfig coerces config) "type" =
  get (resolveHeaderType (readHeaderConfig coerces config)) "type".
Proof. apply resolveHeaderOffset_type. Qed.





Lemma readHeaderConfig_sticky coerces (config : value) :
  Underscore.isFunction config = true ∨ (∃ q, config = num q) →
  readHeaderConfig coerces config =
  <["offset" := config]> (<["type" := VString "sticky"]> ∅).
Proof.
  unfold readHeaderConfig. intros [Hfun|[q ->]].
  - destruct config; try discriminate Hfun. reflexivity.
  - reflexivity.
Qed.

Lemma result_offset_sticky (config : value) :
  Underscore.isFunction config = true ∨ (∃ q, config = num q) →
  Underscore.result
    (<["offset" := config]> (<["type" := VString "sticky"]> ∅))
    "offset" VUndefined
  = Underscore.called config.
Proof.
  intros H. unfold Underscore.result.
  rewrite get_insert, decide_True by done.
  destruct H as [Hfun|[q ->]]; [|done].
  destruct config; try discriminate Hfun. reflexivity.
Qed.

Lemma resolveHeaderOffset_default coerces (header : gmap string value) :
  get header "type" = VString "sticky" →
  Underscore.isFinite coerces (Underscore.result header "offset" VUndefined)
  = false →
  get (resolveHeaderOffset coerces header) "offset" = num 0.
Proof.
  intros Hty Hfin. unfold resolveHeaderOffset. rewrite Hty, Hfin. simpl.
  by rewrite get_insert, decide_True.
Qed.

Lemma resolveHeaderOffset_kept coerces (header : gmap string value) :
  Underscore.isFinite coerces (Underscore.result header "offset" VUndefined)
  = true →
  resolveHeaderOffset coerces header = header.
Proof.
  intros Hfin. unfold resolveHeaderOffset. rewrite Hfin.
  by rewrite andb_false_r.
Qed.

(** C5, as the code has it.  A finite number or a function is normalised
    to the type 'sticky'; its offset is the input itself when the input,
    a function being called without arguments, resolves to a value that
    [_.isFinite] accepts (a finite number, or a value that JavaScript
    coerces to one, such as the string '5'), and 0 when it does not.  And
    for every configuration: when the resolved type is 'sticky' and the
    offset does not resolve to a value that [_.isFinite] accepts, the
    normalised offset is 0. *)
Theorem normalize_sticky_offset coerces (config : value) :
  (Underscore.isFunction config = true ∨ (∃ q, config = num q) →
   get (_normalizeHeaderConfig coerces config) "type" = VString "sticky"
   ∧ (Underscore.isFinite coerces (Underscore.called config) = true →
      get (_normalizeHeaderConfig coerces config) "offset" = config)
   ∧ (Underscore.isFinite coerces (Underscore.called config) = false →
      get (_normalizeHeaderConfig coerces config) "offset" = num 0))
  ∧ (get (resolveHeaderType (readHeaderConfig coerces config)) "type"
     = VString "sticky" →
     Underscore.isFinite coerces
       (Underscore.result (resolveHeaderType (readHeaderConfig coerces config))
          "offset" VUndefined) = false →
     get (_normalizeHeaderConfig coerces config) "offset" = num 0).
Proof.
  split.
  - intros H. unfold _normalizeHeaderConfig.
    rewrite (readHeaderConfig_sticky _ _ H).
    change (resolveHeaderType
              (<["offset" := config]> (<["type" := VString "sticky"]> ∅)))
      with (<["offset" := config]>
              (<["type" := VString "sticky"]> (∅ : gmap string value))).
    split; [|split].
    + by rewrite resolveHeaderOffset_type.
    + intros Hfin. rewrite resolveHeaderOffset_kept.
      * by rewrite get_insert, decide_True.
      * by rewrite result_offset_sticky.
    + intros Hfin. apply resolveHeaderOffset_default; [done|].
      by rewrite result_offset_sticky.
  - intros Hty Hfin. by apply resolveHeaderOffset_default.
Qed.

(** The theorem at the number 24 and at a function that returns it. *)
Lemma normalize_sticky_offset_witness :
  get (_normalizeHeaderConfig Underscore.noCoercion (num 24)) "type"
  = VString "sticky"
  ∧ get (_normalizeHeaderConfig Underscore.noCoercion (VFunction (num 24)))
      "offset" = VFunction (num 24).
Proof.
  split.
  - apply (proj1 (normalize_sticky_offset Underscore.noCoercion (num 24))).
    right. by exists 24%Q.
  - apply (proj1 (normalize_sticky_offset Underscore.noCoercion
                    (VFunction (num 24)))).
    + left. reflexivity.
    + reflexivity.
Defined.

(** C5 as stated fails twice.  At a function that does not return a
    number the type is 'sticky', but the offset is 0 and not the function
    ([undefined] is refused by [_.isFinite] whatever the coercion of the
    other values).  And a sticky header whose offset is the string '5',
    which is no number, keeps that offset instead of getting 0, since
    [_.isFinite] accepts the string. *)
Lemma normalize_function_offset_counterexample :
  (let config := VFunction VUndefined in
   Underscore.isFunction config = true
   ∧ get (_normalizeHeaderConfig Underscore.noCoercion config) "type"
     = VString "sticky"
   ∧ get (_normalizeHeaderConfig Underscore.noCoercion config) "offset"
     = num 0
   ∧ get (_normalizeHeaderConfig Underscore.noCoercion config) "offset"
     ≠ config)
  ∧ (let config :=
       VObject (<["type" := VString "sticky"]>
                  {[ "offset" := VString "5" ]}) in
     get (_normalizeHeaderConfig knownCoercion config) "type"
     = VString "sticky"
     ∧ (∀ q, Underscore.result (props config) "offset" VUndefined ≠ num q)
     ∧ get (_normalizeHeaderConfig knownCoercion config) "offset"
       = VString "5"
     ∧ get (_normalizeHeaderConfig knownCoercion config) "offset" ≠ num 0).
Proof.
  split; repeat split; try reflexivity; discriminate.
Qed.

(** The test of line 75 is [_.isFinite], not "is a number": an offset
    that is the string '5', or a function that returns it, is kept. *)
Example normalize_numeric_string_offset_kept :
  get (_normalizeHeaderConfig knownCoercion
         (VObject (<["type" := VString "sticky"]>
                     {[ "offset" := VString "5" ]}))) "offset"
  = VString "5"
  ∧ get (_normalizeHeaderConfig knownCoercion (VFunction (VString "5")))
      "offset" = VFunction (VString "5")
  ∧ get (_normalizeHeaderConfig knownCoercion
           (VObject (<["type" := VString "sticky"]>
                       {[ "offset" := VString "5px" ]}))) "offset"
    = num 0.
Proof. repeat split; reflexivity. Qed.

(** ** The table state *)

Lemma set_state (this : TableView) (state : gmap string value) :
  _state (after (set this state)) =
  Underscore.extend (_state this) (Underscore.pick state STATE_OPTIONS).
Proof. unfold set. by destruct (_ && _). Qed.

Lemma set_state_lookup (this : TableView) (state : gmap string value)
  (key : string) :
  _state (after (set this state)) !! key =
  if decide (key ∈ STATE_OPTIONS) then
    match state !! key with
    | Some v => Some v
    | None => _state this !! key
    end
  else _state this !! key.
Proof.
  rewrite set_state, lookup_extend, lookup_pick.
  case_decide; [|done]. by destruct (state !! key).
Qed.

(** [set] returns unless the update binds [bodyRows] to [null]. *)
Lemma set_returned (this : TableView) (state : gmap string value) :
  returned (set this state) =
  match state !! "bodyRows" with
  | Some VNull => false
  | _ => true
  end.
Proof.
  unfold set. rewrite get_extend_pick.
  rewrite decide_True by (unfold STATE_OPTIONS; rewrite !elem_of_cons; tauto).
  unfold get at 1 2.
  destruct (state !! "bodyRows") as [[]|] eqn:E; reflexivity.
Qed.

(** C6.  Setting the columns and then the body rows leaves the same table
    state as setting both at once, and each of the three calls returns.
    For every update: a key the update does not hold keeps its value, and
    a state key the update holds takes the update's value. *)
Theorem set_partial_update (this : TableView) :
  (∀ C1 B1 : list value,
     let cols : gmap string value := {[ "cols" := VArray C1 ]} in
     let rows : gmap string value := {[ "bodyRows" := VArray B1 ]} in
     let both : gmap string value :=
       <["cols" := VArray C1]> {[ "bodyRows" := VArray B1 ]} in
     returned (set this cols) = true
     ∧ returned (set (after (set this cols)) rows) = true
     ∧ returned (set this both) = true
     ∧ _state (after (set (after (set this cols)) rows))
       = _state (after (set this both)))
  ∧ (∀ (state : gmap string value) (key : string),
       state !! key = None →
       _state (after (set this state)) !! key = _state this !! key)
  ∧ (∀ (state : gmap string value) (key : string) (v : value),
       key ∈ STATE_OPTIONS → state !! key = Some v →
       _state (after (set this state)) !! key = Some v).
Proof.
  split; [|split].
  - intros C1 B1 cols rows both. rewrite !set_returned.
    repeat split; try reflexivity.
    apply map_eq. intros key. rewrite !set_state_lookup.
    case_decide as Hkey; [|done].
    subst cols rows both.
    destruct (decide (key = "cols")) as [->|Hc]; [reflexivity|].
    destruct (decide (key = "bodyRows")) as [->|Hb]; [reflexivity|].
    rewrite lookup_insert_ne by done.
    by rewrite !lookup_singleton_ne by done.
  - intros state key Hnone. rewrite set_state_lookup, Hnone.
    by case_decide.
  - intros state key v Hkey Hsome. rewrite set_state_lookup, Hsome.
    by rewrite decide_True.
Qed.

(** The theorem on the initial view. *)
Lemma set_partial_update_witness :
  let this := {| _state := initialState; columnGroup := ∅;
                 headerRedraws := 0; footerRedraws := 0;
                 listViewSets := [] |} in
  _state (after (set this {[ "cols" := VNull ]})) !! "headRows"
  = Some (VArray [])
  ∧ _state (after (set this {[ "cols" := VNull ]})) !! "cols" = Some VNull.
Proof.
  intros this.
  pose proof (set_partial_update this) as (_ & Hkeep & Hmerge).
  split.
  - rewrite (Hkeep {[ "cols" := VNull ]} "headRows"); reflexivity.
  - apply Hmerge; [|reflexivity].
    unfold STATE_OPTIONS. apply list_elem_of_here.
Defined.

Lemma forwarded_app (this : TableView) (l : list ListState) st cg hr fr :
  forwarded this
    {| _state := st; columnGroup := cg; headerRedraws := hr;
       footerRedraws := fr; listViewSets := (listViewSets this ++ l)%list |}
  = l.
Proof. unfold forwarded. simpl. by rewrite drop_app_length. Qed.

Lemma forwarded_same (this : TableView) st cg hr fr :
  forwarded this
    {| _state := st; columnGroup := cg; headerRedraws := hr;
       footerRedraws := fr; listViewSets := listViewSets this |}
  = [].
Proof. unfold forwarded. simpl. by rewrite drop_all. Qed.

(** What one call of [set] hands to the list view: nothing when it throws,
    and otherwise one list state, with [items] and [events] for the keys
    of the update that are not [undefined]. *)
Lemma set_forwarded (this : TableView) (state : gmap string value)
  (ls : ListState) :
  ls ∈ forwarded this (after (set this state)) →
  (Underscore.isUndefined (get state "bodyRows") = true → items ls = None)
  ∧ (Underscore.isUndefined (get state "events") = true → events ls = None).
Proof.
  unfold set. destruct (_ && _); simpl.
  - rewrite forwarded_same. by intros ?%elem_of_nil.
  - rewrite forwarded_app. intros ->%list_elem_of_singleton. simpl.
    split; intros ->; reflexivity.
Qed.

Lemma set_without_bodyRows (this : TableView) (state : gmap string value) :
  Underscore.isUndefined (get state "bodyRows") = true →
  ∃ st cg hr fr ev,
    set this state =
    Returned {| _state := st; columnGroup := cg; headerRedraws := hr;
                footerRedraws := fr;
                listViewSets :=
                  (listViewSets this ++ [{| items := None; events := ev |}])%list |}.
Proof.
  intros H. unfold set. rewrite H. cbn [negb andb]. by repeat eexists.
Qed.

(** C10.  When the update binds a state key to [undefined], the stored
    value of the key becomes [undefined], whatever it was; when the key is
    [bodyRows] the call returns and the list state it hands to the list
    view has no [items], and when the key is [events] no list state it
    hands over has [events]. *)
Theorem set_undefined_key (this : TableView) (state : gmap string value)
  (key : string) :
  key ∈ STATE_OPTIONS →
  state !! key = Some VUndefined →
  _state (after (set this state)) !! key = Some VUndefined
  ∧ get (_state (after (set this state))) key = VUndefined
  ∧ (key = "bodyRows" →
     returned (set this state) = true
     ∧ ∃ ls, forwarded this (after (set this state)) = [ls]
             ∧ items ls = None)
  ∧ (key = "events" →
     ∀ ls, ls ∈ forwarded this (after (set this state)) → events ls = None).
Proof.
  intros Hkey Hundef.
  assert (_state (after (set this state)) !! key = Some VUndefined) as Hst.
  { rewrite set_state_lookup, Hundef. by rewrite decide_True. }
  split; [done|]. split; [by unfold get; rewrite Hst|]. split.
  - intros ->. split.
    + by rewrite set_returned, Hundef.
    + destruct (set_without_bodyRows this state)
        as (st & cg & hr & fr & ev & ->).
      { unfold get. by rewrite Hundef. }
      cbn [after]. rewrite forwarded_app. by eexists.
  - intros -> ls Hls. apply (set_forwarded this state ls Hls).
    unfold get. by rewrite Hundef.
Qed.

(** The theorem on a view that holds two body rows and a click handler. *)
Lemma set_undefined_key_witness :
  let this := {| _state := <["bodyRows" := VArray [VNull; VNull]]>
                             (<["events" := VObject {[ "click" := VFunction VUndefined ]}]>
                                initialState);
                 columnGroup := ∅; headerRedraws := 0; footerRedraws := 0;
                 listViewSets := [] |} in
  let state : gmap string value :=
    <["bodyRows" := VUndefined]> {[ "events" := VUndefined ]} in
  _state (after (set this state)) !! "bodyRows" = Some VUndefined
  ∧ _state (after (set this state)) !! "events" = Some VUndefined.
Proof.
  intros this state. split.
  - apply (set_undefined_key this state "bodyRows"); [|reflexivity].
    unfold STATE_OPTIONS. rewrite !elem_of_cons. tauto.
  - apply (set_undefined_key this state "events"); [|reflexivity].
    unfold STATE_OPTIONS. rewrite !elem_of_cons. tauto.
Defined.

(** ** Styles and numbers *)

Lemma lookup_assign (style : gmap string Css.value) (k k' : string)
  (v : Css.value) :
  Css.assign style (k, v) !! k' =
  if decide (k = k') then
    match v with Css.Empty => None | _ => Some v end
  else style !! k'.
Proof.
  unfold Css.assign. simpl. destruct v.
  - rewrite lookup_delete. by case_decide.
  - rewrite lookup_insert. by case_decide.
  - rewrite lookup_insert. by case_decide.
Qed.

Lemma Qltb_lt (a b : Q) : Qltb a b = true ↔ (a < b)%Q.
Proof.
  unfold Qltb. rewrite negb_true_iff, <- not_true_iff_false, Qle_bool_iff.
  split; [apply Qnot_le_lt|apply Qlt_not_le].
Qed.

Lemma Qltb_ge (a b : Q) : Qltb a b = false ↔ (b <= a)%Q.
Proof.
  unfold Qltb. rewrite negb_false_iff. apply Qle_bool_iff.
Qed.

Lemma Qgeb_le (a b : Q) : Qgeb a b = true ↔ (b <= a)%Q.
Proof. apply Qle_bool_iff. Qed.

(** The code's [Math.min(Math.max(x, lo), hi)] is the clamp of the
    specification whenever the bounds are in order. *)
Lemma min_max_clamp (x lo hi : Q) :
  (lo <= hi)%Q → Qmin (Qmax x lo) hi == clamp x lo hi.
Proof.
  intros Hle. unfold clamp.
  destruct (Qltb x lo) eqn:E1.
  - apply Qltb_lt in E1.
    rewrite (Q.max_r x lo) by lra. by rewrite Q.min_l.
  - apply Qltb_ge in E1. rewrite (Q.max_l x lo) by done.
    destruct (Qltb hi x) eqn:E2.
    + apply Qltb_lt in E2. rewrite Q.min_r by lra. reflexivity.
    + apply Qltb_ge in E2. by rewrite Q.min_l.
Qed.

Lemma min_max_bounds (x lo hi : Q) :
  (lo <= hi)%Q → (lo <= Qmin (Qmax x lo) hi <= hi)%Q.
Proof.
  intros Hle. split.
  - apply Q.min_glb; [apply Q.le_max_r|done].
  - apply Q.le_min_r.
Qed.

(** ** The sticky positioner *)

Ltac style_lookup :=
  unfold Css.css; cbn [foldl app];
  repeat (rewrite lookup_assign;
          first [rewrite decide_True by done | rewrite decide_False by done]).

(** The styles a visible tick leaves in the window case. *)
Lemma window_tick_styles (s : Sample) (st : StickyState) :
  visible s = true →
  let top := (Box.top (metricsVP s) + offset s)%Q in
  let sticky := Qltb (Box.top (rectContainer s)) top in
  let st' := adjustStickyHeader true s st in
  stickyHeaderFiller st' !! "display"
  = Some (Css.Keyword (if sticky then "block" else "none"))
  ∧ stickyHeader st' !! "position"
    = Some (Css.Keyword (if sticky then "fixed" else "static"))
  ∧ stickyHeader st' !! "top" = (if sticky then Some (Css.Px top) else None).
Proof.
  intros Hvis top sticky st'. subst st'. unfold adjustStickyHeader.
  rewrite Hvis. cbn [negb]. fold top. fold sticky.
  destruct (resize s st); cbn [stickyHeader stickyHeaderFiller];
    destruct sticky; style_lookup; done.
Qed.

(** C1.  On a visible tick in the window case, with container top [T],
    viewport top [V] and offset [O], the header is engaged at top [V + O]
    exactly when [T < V + O], and is disengaged otherwise; at [T == V + O]
    it is disengaged. *)
Theorem window_sticky_engagement (s : Sample) (st : StickyState) :
  visible s = true →
  let T := Box.top (rectContainer s) in
  let V := Box.top (metricsVP s) in
  let O := offset s in
  let st' := adjustStickyHeader true s st in
  (engaged st' (V + O) ↔ (T < V + O)%Q)
  ∧ (disengaged st' ↔ ¬ (T < V + O)%Q)
  ∧ (T == V + O → disengaged st').
Proof.
  intros Hvis T V O st'.
  destruct (window_tick_styles s st Hvis) as (Hdisplay & Hposition & Htop).
  fold T V O st' in Hdisplay, Hposition, Htop.
  unfold engaged, disengaged. rewrite Hdisplay, Hposition, Htop.
  destruct (Qltb T (V + O)) eqn:E.
  - apply Qltb_lt in E. split; [|split].
    + tauto.
    + split; [intros (? & ? & ?); discriminate|tauto].
    + intros Heq. rewrite Heq in E. by apply Qlt_irrefl in E.
  - apply Qltb_ge in E. apply Qle_not_lt in E. split; [|split].
    + split; [intros (? & ? & ?); discriminate|tauto].
    + tauto.
    + tauto.
Qed.

(** The move of a visible tick in the nested case. *)
Lemma nested_tick_styles (s : Sample) (st : StickyState) :
  visible s = true →
  let st' := adjustStickyHeader false s st in
  stickyHeaderFiller st' !! "display" = Some (Css.Keyword "none")
  ∧ stickyHeader st' !! "position" = Some (Css.Keyword "relative")
  ∧ stickyHeader st' !! "top"
    = Some (Css.Px (Qmin (Qmax (Box.top (metricsVP s) + offset s
                                - Box.top (rectContainer s)) 0)
                         (tableHeight s))).
Proof.
  intros Hvis st'. subst st'. unfold adjustStickyHeader.
  rewrite Hvis. cbn [negb stickyHeader stickyHeaderFiller].
  repeat split; style_lookup; done.
Qed.

(** C2.  On a visible tick in the nested case the header is moved down by
    [clamp(V + O - T, 0, tableHeight)], which lies between 0 and the height
    of the table, whatever [V + O - T] is.  (The height of an element is
    not negative.) *)
Theorem nested_sticky_offset_clamped (s : Sample) (st : StickyState) :
  visible s = true →
  (0 <= tableHeight s)%Q →
  let unclamped :=
    (Box.top (metricsVP s) + offset s - Box.top (rectContainer s))%Q in
  ∃ top,
    stickyHeader (adjustStickyHeader false s st) !! "top" = Some (Css.Px top)
    ∧ top == clamp unclamped 0 (tableHeight s)
    ∧ (0 <= top <= tableHeight s)%Q.
Proof.
  intros Hvis Hheight unclamped.
  destruct (nested_tick_styles s st Hvis) as (_ & _ & Htop).
  eexists. split; [exact Htop|]. split.
  - by apply min_max_clamp.
  - by apply min_max_bounds.
Qed.

(** The theorem with the container 10 below the viewport top (engaged at
    20) and with the container at the boundary, 20 below it (disengaged). *)
Lemma window_sticky_engagement_witness :
  engaged (adjustStickyHeader true (sampleAt true 10) freshSticky) (0 + 20)
  ∧ disengaged (adjustStickyHeader true (sampleAt true 20) freshSticky).
Proof.
  split.
  - apply (window_sticky_engagement (sampleAt true 10) freshSticky);
      reflexivity.
  - apply (window_sticky_engagement (sampleAt true 20) freshSticky);
      reflexivity.
Defined.

(** The theorem with the container far above the viewport top. *)
Lemma nested_sticky_offset_clamped_witness :
  ∃ top,
    stickyHeader (adjustStickyHeader false (sampleAt true (-9000)) freshSticky)
      !! "top" = Some (Css.Px top)
    ∧ top == clamp (0 + 20 - -9000) 0 4000
    ∧ (0 <= top <= 4000)%Q.
Proof.
  apply (nested_sticky_offset_clamped (sampleAt true (-9000)) freshSticky).
  - reflexivity.
  - discriminate.
Defined.

(** The widths and the stored size a visible tick leaves in the window
    case, by the outcome of the size test. *)
Lemma window_tick_widths (s : Sample) (st : StickyState) :
  visible s = true →
  let st' := adjustStickyHeader true s st in
  if resize s st then
    stickyHeader st' !! "width" = Some (Css.Px (tableContainerWidth s))
    ∧ table st' !! "width" = Some (Css.Px (tableContainerWidth s))
    ∧ viewportSize st'
      = Size.Make (Box.width (metricsVP s)) (Box.height (metricsVP s))
  else
    stickyHeader st' !! "width" = stickyHeader st !! "width"
    ∧ table st' = table st
    ∧ viewportSize st' = viewportSize st.
Proof.
  intros Hvis st'. subst st'. unfold adjustStickyHeader.
  rewrite Hvis. cbn [negb].
  destruct (resize s st); cbn [stickyHeader table viewportSize];
    (split; [|split]); try done; style_lookup; done.
Qed.

Lemma resize_spec (s : Sample) (st : StickyState) :
  resize s st = true ↔
  (1 <= Qabs (Box.width (metricsVP s) - Size.width (viewportSize st)))%Q
  ∨ (1 <= Qabs (Box.height (metricsVP s) - Size.height (viewportSize st)))%Q.
Proof.
  unfold resize. by rewrite orb_true_iff, !Qgeb_le.
Qed.

(** C7.  On a visible tick in the window case: when the sampled viewport
    size is at least one pixel away, in width or in height, from the size
    stored at the last recomputation, the width measured on the container
    is applied to the sticky header and to the table alike, and the
    sampled size is stored; otherwise the width of the header, the table
    and the stored size are left as they were. *)
Theorem window_width_resync (s : Sample) (st : StickyState) :
  visible s = true →
  let changed :=
    (1 <= Qabs (Box.width (metricsVP s) - Size.width (viewportSize st)))%Q
    ∨ (1 <= Qabs (Box.height (metricsVP s)
                  - Size.height (viewportSize st)))%Q in
  let st' := adjustStickyHeader true s st in
  (changed →
   stickyHeader st' !! "width" = Some (Css.Px (tableContainerWidth s))
   ∧ table st' !! "width" = Some (Css.Px (tableContainerWidth s))
   ∧ viewportSize st'
     = Size.Make (Box.width (metricsVP s)) (Box.height (metricsVP s)))
  ∧ (¬ changed →
     stickyHeader st' !! "width" = stickyHeader st !! "width"
     ∧ table st' = table st
     ∧ viewportSize st' = viewportSize st).
Proof.
  intros Hvis changed st'.
  pose proof (window_tick_widths s st Hvis) as H. fold st' in H.
  pose proof (resize_spec s st) as Hspec. fold changed in Hspec.
  destruct (resize s st).
  - split; [done|]. intros Hn. exfalso. apply Hn. by apply Hspec.
  - split; [|done]. intros Hc. apply Hspec in Hc. discriminate.
Qed.

(** The theorem on the first tick after hook-up, when the stored size is
    still 0 by 0, and on the tick that follows with the viewport half a
    pixel wider. *)
Lemma window_width_resync_witness :
  let first := adjustStickyHeader true (sampleAt true 10) freshSticky in
  let nudged :=
    {| visible := true;
       metricsVP := Box.Make 0 0 (2561 # 2) 720;
       offset := 20;
       rectContainer := Box.Make 10 8 777 4000;
       stickyHeaderHeight := 32;
       tableHeight := 4000;
       tableContainerWidth := 777 |} in
  (stickyHeader first !! "width" = Some (Css.Px 960)
   ∧ table first !! "width" = Some (Css.Px 960)
   ∧ viewportSize first = Size.Make 1280 720)
  ∧ (stickyHeader (adjustStickyHeader true nudged first) !! "width"
     = stickyHeader first !! "width"
     ∧ table (adjustStickyHeader true nudged first) = table first
     ∧ viewportSize (adjustStickyHeader true nudged first)
       = viewportSize first).
Proof.
  intros first nudged. split.
  - apply (window_width_resync (sampleAt true 10) freshSticky).
    + reflexivity.
    + left. discriminate.
  - apply (window_width_resync nudged first).
    + reflexivity.
    + intros [H|H]; apply H; reflexivity.
Defined.

(** C9.  A tick on which the root element is not visible changes nothing:
    the styles of the header, of the filler and of the table and the stored
    viewport size are what they were, in either viewport case; and so does
    any run of such ticks. *)
Theorem invisible_tick_noop (isWindow : bool) (st : StickyState) :
  (∀ s, visible s = false → adjustStickyHeader isWindow s st = st)
  ∧ (∀ samples, Forall (λ s, visible s = false) samples →
                ticks isWindow samples st = st).
Proof.
  assert (∀ s st0, visible s = false →
                   adjustStickyHeader isWindow s st0 = st0) as Hone.
  { intros s st0 Hvis. unfold adjustStickyHeader. by rewrite Hvis. }
  split; [by intros; apply Hone|].
  intros samples Hall. revert st.
  induction Hall as [|s samples Hvis _ IH]; intros st; [done|].
  unfold ticks. cbn [foldl]. rewrite Hone by done. apply IH.
Qed.

(** The theorem on a hidden page, in both cases. *)
Lemma invisible_tick_noop_witness :
  adjustStickyHeader true (sampleAt false 10) freshSticky = freshSticky
  ∧ adjustStickyHeader false (sampleAt false 10) freshSticky = freshSticky.
Proof.
  split.
  - apply (invisible_tick_noop true freshSticky). reflexivity.
  - apply (invisible_tick_noop false freshSticky). reflexivity.
Defined.

(** ** The fixed header *)



(** ** Looking a row up *)

Lemma closestFrom_unfold (doc : Dom.node) (sel : string) (ctx : Dom.context)
  (rcur : list nat) :
  Dom.closestFrom doc sel ctx rcur =
  if negb (Dom.differs (rev rcur) ctx) then None
  else if Dom.matches doc sel (rev rcur) then Some (rev rcur)
  else match rcur with
       | [] => None
       | _ :: rparent => Dom.closestFrom doc sel ctx rparent
       end.
Proof. by destruct rcur. Qed.

(** Without a matching element on the way up to the root, the walk finds
    nothing. *)
Lemma closestFrom_none (doc : Dom.node) (sel : string)
  (paths : list (list nat)) (rcur : list nat) :
  (∀ r, r `suffix_of` rcur → Dom.matches doc sel (rev r) = false) →
  Dom.closestFrom doc sel (Dom.ContextCollection paths) rcur = None.
Proof.
  induction rcur as [|i rparent IH]; intros Hno;
    rewrite closestFrom_unfold; cbn [Dom.differs negb];
    rewrite (Hno _ (reflexivity _)); [done|].
  apply IH. intros r Hr. apply Hno. by apply suffix_cons_r.
Qed.

(** The walk stops at the first matching element. *)
Lemma closestFrom_found (doc : Dom.node) (sel : string)
  (paths : list (list nat)) (rbelow rrow : list nat) :
  Dom.matches doc sel (rev rrow) = true →
  (∀ r, r ≠ [] → r `suffix_of` rbelow →
        Dom.matches doc sel (rev (r ++ rrow)) = false) →
  Dom.closestFrom doc sel (Dom.ContextCollection paths) (rbelow ++ rrow)
  = Some (rev rrow).
Proof.
  intros Hrow. induction rbelow as [|i rbelow IH]; intros Hno.
  - rewrite closestFrom_unfold. cbn [Dom.differs negb app]. by rewrite Hrow.
  - rewrite closestFrom_unfold. cbn [Dom.differs negb].
    rewrite (Hno (i :: rbelow)) by done.
    cbn [app]. apply IH. intros r Hne Hr. apply Hno; [done|].
    by apply suffix_cons_r.
Qed.

Lemma index_snoc (path : list nat) (k : nat) : Dom.index (path ++ [k]) = k.
Proof. unfold Dom.index. apply last_last. Qed.

Lemma find_inside (doc : Dom.node) (root el : list nat) :
  is_Some (Dom.at_ el doc) → root `prefix_of` el → el ≠ root →
  Dom.find doc root el = Some el.
Proof.
  intros Hat Hpre Hne. unfold Dom.find.
  by rewrite (bool_decide_eq_true_2 _ Hat), (bool_decide_eq_true_2 _ Hpre),
    (bool_decide_eq_false_2 _ Hne).
Qed.

Lemma find_some (doc : Dom.node) (root el x : list nat) :
  Dom.find doc root el = Some x → x = el.
Proof. unfold Dom.find. destruct (_ && _); congruence. Qed.

(** C8, as the code has it.  For a node [el] of the list view whose
    nearest enclosing [tr] is the [k]-th child element of the container,
    no other [tr] lying between the node and that row, the result is
    [k + indexFirst - 1]; for a node with no enclosing [tr] at all, and for
    a node that is not in the list view (it is not in the page, or not
    below the root element of the list view, or is that root), the result
    is [null].  The function is total: it returns for every node. *)
Theorem indexOfElement_row_or_null (lv : ListView) :
  (∀ (k : nat) (below : list nat),
     let el := container lv ++ k :: below in
     root lv `prefix_of` container lv →
     is_Some (Dom.at_ el (document lv)) →
     Dom.matches (document lv) "tr" (container lv ++ [k]) = true →
     (∀ inner, inner ≠ [] → inner `prefix_of` below →
        Dom.matches (document lv) "tr" (container lv ++ k :: inner) = false) →
     indexOfElement lv el = Some (Z.of_nat k + indexFirst lv - 1)%Z)
  ∧ (∀ el,
       (∀ p, p `prefix_of` el → Dom.matches (document lv) "tr" p = false) →
       indexOfElement lv el = None)
  ∧ (∀ el,
       Dom.at_ el (document lv) = None ∨ ¬ root lv `prefix_of` el
       ∨ el = root lv →
       indexOfElement lv el = None).
Proof.
  split; [|split].
  - intros k below el [mid Hroot] Hat Hrow Hinner. unfold indexOfElement.
    rewrite find_inside; [|done| |].
    + unfold Dom.closest.
      replace (rev el) with (rev below ++ rev (container lv ++ [k])).
      2:{ subst el. rewrite (rev_app_distr (container lv) (k :: below)).
          cbn [rev]. rewrite rev_app_distr. cbn [rev app].
          by rewrite <- app_assoc. }
      rewrite closestFrom_found.
      * by rewrite rev_involutive, index_snoc.
      * by rewrite rev_involutive.
      * intros r Hne [pre Hr]. rewrite rev_app_distr, rev_involutive.
        rewrite <- app_assoc. cbn [app]. apply Hinner.
        -- intros Hnil. apply Hne. apply (f_equal (@rev nat)) in Hnil.
           by rewrite rev_involutive in Hnil.
        -- exists (rev pre). apply (f_equal (@rev nat)) in Hr.
           by rewrite rev_involutive, rev_app_distr in Hr.
    + subst el. rewrite Hroot, <- app_assoc. by eexists.
    + subst el. rewrite Hroot, <- app_assoc. intros Heq.
      apply (f_equal List.length) in Heq.
      rewrite !length_app in Heq. cbn [List.length] in Heq. lia.
  - intros el Hno. unfold indexOfElement.
    destruct (Dom.find _ _ el) as [x|] eqn:E; [|done].
    apply find_some in E as ->. unfold Dom.closest.
    rewrite closestFrom_none; [done|].
    intros r [pre Hr]. apply Hno. exists (rev pre).
    apply (f_equal (@rev nat)) in Hr.
    by rewrite rev_involutive, rev_app_distr in Hr.
  - intros el Hout. unfold indexOfElement.
    replace (Dom.find (document lv) (root lv) el) with (@None (list nat));
      [done|].
    unfold Dom.find. destruct Hout as [Hat|[Hpre|Heq]].
    + rewrite Hat. by rewrite bool_decide_eq_false_2 by apply is_Some_None.
    + rewrite (bool_decide_eq_false_2 _ Hpre). by rewrite andb_false_r.
    + rewrite (bool_decide_eq_true_2 _ Heq). by rewrite andb_false_r.
Qed.

(** The theorem on the sample page: the [span] in the first materialised
    row, which is the child 1 of the container, the table itself, the root
    of the list view, and a node that is not in the page. *)
Lemma indexOfElement_row_or_null_witness :
  indexOfElement sampleListView [0; 0; 0; 2; 1; 0; 0]%nat = Some 40%Z
  ∧ indexOfElement sampleListView [0; 0; 0]%nat = None
  ∧ indexOfElement sampleListView [0; 0]%nat = None
  ∧ indexOfElement sampleListView [0; 0; 0; 2; 9]%nat = None.
Proof.
  pose proof (indexOfElement_row_or_null sampleListView)
    as (Hrow & Hnull & Hout).
  split; [|split; [|split]]; [| |apply Hout; right; right; reflexivity
                             |apply Hout; left; reflexivity].
  - apply (Hrow 1%nat [0; 0]%nat).
    + by exists [0; 2]%nat.
    + by eexists.
    + reflexivity.
    + intros inner Hne [rest Hrest].
      destruct inner as [|i [|j [|? ?]]]; simplify_eq/=; reflexivity.
  - apply Hnull. intros p [rest Hrest].
    destruct p as [|i [|j [|l [|? ?]]]]; simplify_eq/=; reflexivity.
Defined.

(** C8 as stated fails twice.  A header cell is in no row of the container,
    and the result is the position of the header row in its [thead] plus
    [indexFirst - 1], not [null].  And a cell of a table nested in the
    second materialised row, the child 2 of the container, gets the index
    of its own row in the nested table, 39, and not 41. *)
Lemma indexOfElement_counterexample :
  (¬ container sampleListView `prefix_of` [0; 0; 0; 1; 0; 0]%nat
   ∧ indexOfElement sampleListView [0; 0; 0; 1; 0; 0]%nat = Some 39%Z
   ∧ indexOfElement sampleListView [0; 0; 0; 1; 0; 0]%nat ≠ None)
  ∧ (container nestedListView ++ [2]%nat
       `prefix_of` [0; 0; 0; 2; 2; 0; 0; 0; 0; 0]%nat
     ∧ Dom.matches nestedPage "tr" (container nestedListView ++ [2]%nat)
       = true
     ∧ indexOfElement nestedListView [0; 0; 0; 2; 2; 0; 0; 0; 0; 0]%nat
       = Some 39%Z
     ∧ indexOfElement nestedListView [0; 0; 0; 2; 2; 0; 0; 0; 0; 0]%nat
       ≠ Some (2 + indexFirst nestedListView - 1)%Z).
Proof.
  split.
  - split; [|split; [reflexivity|discriminate]].
    intros [rest Hrest]. discriminate Hrest.
  - split; [by eexists|]. split; [reflexivity|].
    split; [reflexivity|discriminate].
Qed.

(** * Further properties *)

(** ** The normalised header *)

Lemma result_fallback coerces (o : gmap string value) (key : string)
  (fallback : value) :
  Underscore.isFinite coerces (Underscore.result o key VUndefined) = true →
  Underscore.result o key fallback = Underscore.result o key VUndefined.
Proof.
  unfold Underscore.result.
  destruct (Underscore.isUndefined (get o key)); [discriminate|done].
Qed.

Lemma normalized_offset_resolves coerces (config : value) :
  get (_normalizeHeaderConfig coerces config) "type" = VString "sticky" →
  Underscore.isFinite coerces
    (Underscore.result (_normalizeHeaderConfig coerces config) "offset"
       VUndefined) = true.
Proof.
  unfold _normalizeHeaderConfig. rewrite resolveHeaderOffset_type.
  set (h := resolveHeaderType (readHeaderConfig coerces config)).
  intros Hty. unfold resolveHeaderOffset. rewrite Hty.
  destruct (Underscore.isFinite coerces
              (Underscore.result h "offset" VUndefined)) eqn:E;
    cbn [is_str String.eqb Ascii.eqb Bool.eqb andb negb]; [done|].
  unfold Underscore.result. by rewrite get_insert, decide_True.
Qed.

(** X1.  Whenever the normalised type is 'sticky', the offset the positioner
    reads, [_.result(header, 'offset', 0)], is a value that [_.isFinite]
    accepts. *)
Theorem sticky_offset_resolves coerces (config : value) :
  get (_normalizeHeaderConfig coerces config) "type" = VString "sticky" →
  Underscore.isFinite coerces
    (Underscore.result (_normalizeHeaderConfig coerces config) "offset"
       (num 0)) = true.
Proof.
  intros Hty. pose proof (normalized_offset_resolves coerces config Hty) as H.
  by rewrite (result_fallback coerces _ _ _ H).
Qed.

(** The theorem at the string 'sticky', whose offset is filled in, and at
    an object whose offset is a function. *)
Lemma sticky_offset_resolves_witness :
  Underscore.isFinite Underscore.noCoercion
    (Underscore.result
       (_normalizeHeaderConfig Underscore.noCoercion (VString "sticky"))
       "offset" (num 0)) = true
  ∧ Underscore.isFinite Underscore.noCoercion
      (Underscore.result
         (_normalizeHeaderConfig Underscore.noCoercion
            (VObject (<["type" := VString "sticky"]>
                        {[ "offset" := VFunction (num 48) ]})))
         "offset" (num 0)) = true.
Proof.
  split; apply sticky_offset_resolves; reflexivity.
Defined.

Lemma readHeaderConfig_keys coerces (config : value) (k : string) :
  k ≠ "type" → k ≠ "offset" → readHeaderConfig coerces config !! k = None.
Proof.
  intros Hty Hoff. unfold readHeaderConfig.
  destruct (Underscore.isString config).
  { by rewrite lookup_insert_ne, lookup_empty. }
  destruct (_ || _).
  { by rewrite !lookup_insert_ne, lookup_empty. }
  destruct (_ && _); [|apply lookup_empty].
  rewrite lookup_extend, lookup_pick, lookup_empty.
  rewrite decide_False; [done|].
  rewrite !elem_of_cons, elem_of_nil. intuition congruence.
Qed.

Lemma normalized_keys coerces (config : value) (k : string) :
  k ≠ "type" → k ≠ "offset" →
  _normalizeHeaderConfig coerces config !! k = None.
Proof.
  intros Hty Hoff. unfold _normalizeHeaderConfig, resolveHeaderOffset.
  destruct (_ && _); [rewrite lookup_insert_ne by done|];
    unfold resolveHeaderType; (destruct (negb _);
      [rewrite lookup_insert_ne by done|]);
    by apply readHeaderConfig_keys.
Qed.

Lemma normalized_type_valid coerces (config : value) :
  Underscore.contains HEADER_TYPES
    (get (_normalizeHeaderConfig coerces config) "type") = true.
Proof. rewrite normalized_type. apply resolveHeaderType_valid. Qed.

(** X2.  The normalised header is the canonical descriptor: it has a
    [type], and no property other than [type] and [offset], whatever other
    fields the configuration carried. *)
Theorem normalized_header_shape coerces (config : value) :
  is_Some (_normalizeHeaderConfig coerces config !! "type")
  ∧ ∀ k, k ≠ "type" → k ≠ "offset" →
         _normalizeHeaderConfig coerces config !! k = None.
Proof.
  split; [|intros k; apply normalized_keys].
  pose proof (normalized_type_valid coerces config)
    as (s & Hs & _)%contains_spec.
  unfold get in Hs.
  destruct (_normalizeHeaderConfig coerces config !! "type"); [by eexists|].
  discriminate Hs.
Qed.

(** The theorem at an object with a stray field. *)
Lemma normalized_header_shape_witness :
  _normalizeHeaderConfig Underscore.noCoercion
    (VObject (<["type" := VString "fixed"]> {[ "sticky" := VBool true ]}))
  !! "sticky" = None.
Proof.
  apply (normalized_header_shape Underscore.noCoercion); discriminate.
Defined.

Lemma is_str_true (lit : string) (v : value) :
  is_str lit v = true ↔ v = VString lit.
Proof.
  destruct v; simpl; try (split; [discriminate|discriminate]).
  rewrite String.eqb_eq. split; [by intros ->|by intros [= ->]].
Qed.

Lemma readHeaderConfig_object coerces (o : gmap string value) (s : string) :
  coerces (VObject o) = false →
  get o "type" = VString s →
  readHeaderConfig coerces (VObject o)
  = Underscore.extend ∅ (Underscore.pick o ["type"; "offset"]).
Proof.
  intros Hco Hty. unfold readHeaderConfig.
  cbn [Underscore.isString Underscore.isFunction Underscore.isFinite
       Underscore.isObject orb andb props].
  rewrite Hco. change (prop (VObject o) "type") with (get o "type").
  by rewrite Hty.
Qed.

Lemma resolveHeaderOffset_fixpoint coerces (config : value) :
  resolveHeaderOffset coerces (_normalizeHeaderConfig coerces config)
  = _normalizeHeaderConfig coerces config.
Proof.
  unfold resolveHeaderOffset at 1.
  destruct (is_str "sticky" (get (_normalizeHeaderConfig coerces config) "type"))
    eqn:E; [|done].
  apply is_str_true in E.
  by rewrite (normalized_offset_resolves coerces config E).
Qed.

(** X3.  Normalising is idempotent: the normalised descriptor, given back
    as an object configuration, is normalised to itself.  (The descriptor
    is a plain object, which [_.isFinite] does not take for a number.) *)
Theorem normalize_idempotent coerces (config : value) :
  coerces (VObject (_normalizeHeaderConfig coerces config)) = false →
  _normalizeHeaderConfig coerces
    (VObject (_normalizeHeaderConfig coerces config))
  = _normalizeHeaderConfig coerces config.
Proof.
  intros Hco.
  pose proof (normalized_type_valid coerces config) as Hvalid.
  pose proof Hvalid as (s & Hty & _)%contains_spec.
  set (h := _normalizeHeaderConfig coerces config) in *.
  assert (readHeaderConfig coerces (VObject h) = h) as Hread.
  { rewrite (readHeaderConfig_object coerces h s Hco Hty).
    apply map_eq. intros k. rewrite lookup_extend, lookup_pick, lookup_empty.
    case_decide as Hk; [by destruct (h !! k)|].
    symmetry. apply normalized_keys; intros ->; apply Hk;
      rewrite !elem_of_cons; tauto. }
  unfold _normalizeHeaderConfig at 1. rewrite Hread.
  unfold resolveHeaderType. rewrite Hvalid. cbn [negb].
  apply resolveHeaderOffset_fixpoint.
Qed.

(** The theorem at the number 24 and at a junk configuration. *)
Lemma normalize_idempotent_witness :
  _normalizeHeaderConfig Underscore.noCoercion
    (VObject (_normalizeHeaderConfig Underscore.noCoercion (num 24)))
  = _normalizeHeaderConfig Underscore.noCoercion (num 24)
  ∧ _normalizeHeaderConfig Underscore.noCoercion
      (VObject (_normalizeHeaderConfig Underscore.noCoercion (VBool true)))
    = _normalizeHeaderConfig Underscore.noCoercion (VBool true).
Proof.
  split; apply normalize_idempotent; reflexivity.
Defined.

(** X4.  The string shorthand is the object form: a string [s] is
    normalised as the object [{type: s}] is, for every string. *)
Theorem normalize_string_shorthand coerces (s : string) :
  coerces (VObject {[ "type" := VString s ]}) = false →
  _normalizeHeaderConfig coerces (VString s)
  = _normalizeHeaderConfig coerces (VObject {[ "type" := VString s ]}).
Proof.
  intros Hco. unfold _normalizeHeaderConfig. f_equal. f_equal.
  rewrite (readHeaderConfig_object coerces _ s Hco) by done.
  unfold readHeaderConfig. cbn [Underscore.isString].
  apply map_eq. intros k. rewrite lookup_extend, lookup_pick, lookup_empty.
  destruct (decide (k = "type")) as [->|Hne].
  - by rewrite decide_True by apply list_elem_of_here.
  - rewrite lookup_insert_ne, lookup_empty by done.
    rewrite lookup_singleton_ne by done. by case_decide.
Qed.

(** The theorem at 'sticky' and at a string that is no header type. *)
Lemma normalize_string_shorthand_witness :
  _normalizeHeaderConfig Underscore.noCoercion (VString "sticky")
  = _normalizeHeaderConfig Underscore.noCoercion
      (VObject {[ "type" := VString "sticky" ]})
  ∧ _normalizeHeaderConfig Underscore.noCoercion (VString "floating")
    = _normalizeHeaderConfig Underscore.noCoercion
        (VObject {[ "type" := VString "floating" ]}).
Proof.
  split; apply normalize_string_shorthand; reflexivity.
Defined.

(** X5.  An object configuration whose type is a string other than
    'sticky' keeps its [offset] exactly as given, without looking at it;
    its type is kept when it is 'static' or 'fixed' and becomes 'static'
    otherwise. *)
Theorem normalize_object_offset_verbatim coerces (o : gmap string value)
  (s : string) :
  coerces (VObject o) = false →
  get o "type" = VString s →
  s ≠ "sticky" →
  get (_normalizeHeaderConfig coerces (VObject o)) "offset" = get o "offset"
  ∧ (s ∈ HEADER_TYPES →
     get (_normalizeHeaderConfig coerces (VObject o)) "type" = VString s)
  ∧ (s ∉ HEADER_TYPES →
     get (_normalizeHeaderConfig coerces (VObject o)) "type"
     = VString "static").
Proof.
  intros Hco Hty Hne.
  assert (∀ k, k ∈ ["type"; "offset"] →
               get (readHeaderConfig coerces (VObject o)) k = get o k) as Hread.
  { intros k Hk. rewrite (readHeaderConfig_object coerces o s Hco Hty).
    rewrite get_extend_pick, decide_True, get_empty by done.
    unfold get. by destruct (o !! k). }
  assert ("type" ∈ ["type"; "offset"]) as Htin by (rewrite !elem_of_cons; tauto).
  assert ("offset" ∈ ["type"; "offset"]) as Hoin
    by (rewrite !elem_of_cons; tauto).
  set (r := readHeaderConfig coerces (VObject o)) in *.
  assert (get (resolveHeaderType r) "offset" = get o "offset") as Hoff.
  { unfold resolveHeaderType. destruct (negb _).
    - rewrite get_insert, decide_False by done. by apply Hread.
    - by apply Hread. }
  assert (get (resolveHeaderType r) "type"
          = VString (if decide (s ∈ HEADER_TYPES) then s else "static"))
    as Htype.
  { unfold resolveHeaderType. rewrite (Hread _ Htin), Hty.
    destruct (Underscore.contains HEADER_TYPES (VString s)) eqn:E; cbn [negb].
    - apply contains_spec in E as (s' & [= <-] & Hin).
      rewrite decide_True by done. rewrite (Hread _ Htin). exact Hty.
    - rewrite decide_False.
      + by rewrite get_insert, decide_True.
      + intros Hin. apply not_true_iff_false in E. apply E.
        apply contains_spec. eauto. }
  assert (resolveHeaderOffset coerces (resolveHeaderType r)
          = resolveHeaderType r) as Hkept.
  { unfold resolveHeaderOffset. rewrite Htype.
    replace (is_str "sticky"
               (VString (if decide (s ∈ HEADER_TYPES) then s else "static")))
      with false; [done|].
    symmetry. apply not_true_iff_false. intros Hs%is_str_true.
    case_decide; [by injection Hs|discriminate Hs]. }
  unfold _normalizeHeaderConfig. fold r. rewrite Hkept, Htype.
  split; [done|]. split; intros Hin.
  - by rewrite decide_True.
  - by rewrite decide_False.
Qed.

(** The theorem at a fixed header that carries a textual offset. *)
Lemma normalize_object_offset_verbatim_witness :
  let o : gmap string value :=
    <["type" := VString "fixed"]> {[ "offset" := VString "3em" ]} in
  get (_normalizeHeaderConfig Underscore.noCoercion (VObject o)) "offset"
  = VString "3em".
Proof.
  intros o.
  apply (normalize_object_offset_verbatim Underscore.noCoercion o "fixed");
    [reflexivity|reflexivity|discriminate].
Defined.

(** ** The scrolling configuration and the constructor *)

(** The header configuration [_normalizeScrollingConfig] normalises. *)
Lemma normalizeScrolling_some coerces (config : value) :
  nullish config = false →
  ∃ sc,
    _normalizeScrollingConfig coerces config = Some sc
    ∧ get sc "header"
      = VObject (_normalizeHeaderConfig coerces
                   (orDefault (prop config "header") (VString "static")))
    ∧ get sc "virtualized"
      = orDefault (prop config "virtualized") (VBool false)
    ∧ get sc "viewport"
      = (if is_str "fixed"
              (get (_normalizeHeaderConfig coerces
                      (orDefault (prop config "header") (VString "static")))
                 "type")
         then VString ".viewport" else prop config "viewport").
Proof.
  intros Hnull. unfold _normalizeScrollingConfig. rewrite Hnull.
  set (h := _normalizeHeaderConfig coerces _).
  rewrite get_insert, decide_True by done.
  change (prop (VObject h) "type") with (get h "type").
  destruct (is_str "fixed" (get h "type")); eexists; (split; [done|]);
    repeat (rewrite get_insert;
            first [rewrite decide_True by done|rewrite decide_False by done]);
    done.
Qed.

Lemma normalizeScrolling_none coerces (config : value) :
  _normalizeScrollingConfig coerces config = None ↔ nullish config = true.
Proof.
  split.
  - intros H. destruct (nullish config) eqn:E; [done|].
    destruct (normalizeScrolling_some coerces config E) as (sc & Hsc & _).
    congruence.
  - intros H. unfold _normalizeScrollingConfig. by rewrite H.
Qed.

Lemma header_type_cases (h : gmap string value) :
  Underscore.contains HEADER_TYPES (get h "type") = true →
  get h "type" = VString "static" ∨ get h "type" = VString "fixed"
  ∨ get h "type" = VString "sticky".
Proof.
  intros (s & -> & Hin)%contains_spec. unfold HEADER_TYPES in Hin.
  repeat (apply elem_of_cons in Hin as [->|Hin]; [tauto|]).
  by apply elem_of_nil in Hin.
Qed.

(** X6.  In the normalised scrolling configuration the header type is one
    of the three, and the viewport is ['.viewport'] when the type is
    'fixed', whatever viewport was configured, and the configured viewport
    otherwise. *)
Theorem scrolling_viewport_rule coerces (config : value)
  (sc : gmap string value) :
  _normalizeScrollingConfig coerces config = Some sc →
  let type := prop (get sc "header") "type" in
  (type = VString "static" ∨ type = VString "fixed" ∨ type = VString "sticky")
  ∧ (type = VString "fixed" → get sc "viewport" = VString ".viewport")
  ∧ (type ≠ VString "fixed" → get sc "viewport" = prop config "viewport").
Proof.
  intros Hsc type.
  assert (nullish config = false) as Hnull.
  { apply not_true_iff_false. intros H%(normalizeScrolling_none coerces).
    congruence. }
  destruct (normalizeScrolling_some coerces config Hnull)
    as (sc' & Hsc' & Hheader & _ & Hviewport).
  assert (sc' = sc) as -> by congruence.
  subst type. rewrite Hheader, Hviewport.
  set (h := _normalizeHeaderConfig coerces _).
  change (prop (VObject h) "type") with (get h "type").
  split; [apply header_type_cases, normalized_type_valid|].
  split.
  - intros ->. reflexivity.
  - intros Hne. destruct (is_str "fixed" (get h "type")) eqn:E; [|done].
    by apply is_str_true in E.
Qed.

(** The theorem at a fixed header with a configured viewport, and at a
    sticky one. *)
Lemma scrolling_viewport_rule_witness :
  (∃ sc,
     _normalizeScrollingConfig Underscore.noCoercion
       (VObject (<["header" := VString "fixed"]>
                   {[ "viewport" := VString "#pane" ]})) = Some sc
     ∧ get sc "viewport" = VString ".viewport")
  ∧ (∃ sc,
       _normalizeScrollingConfig Underscore.noCoercion
         (VObject (<["header" := num 10]>
                     {[ "viewport" := VString "#pane" ]})) = Some sc
       ∧ get sc "viewport" = VString "#pane").
Proof.
  split.
  - pose proof (scrolling_viewport_rule Underscore.noCoercion
                  (VObject (<["header" := VString "fixed"]>
                              {[ "viewport" := VString "#pane" ]}))
                  _ eq_refl) as (_ & Hfixed & _).
    eexists. split; [reflexivity|]. apply Hfixed. reflexivity.
  - pose proof (scrolling_viewport_rule Underscore.noCoercion
                  (VObject (<["header" := num 10]>
                              {[ "viewport" := VString "#pane" ]}))
                  _ eq_refl) as (_ & _ & Hother).
    eexists. split; [reflexivity|]. apply Hother. discriminate.
Defined.

(** X7.  The destructuring of the scrolling configuration throws exactly
    on [null] and [undefined]; a configuration without a header, or with the header
    bound to [undefined], gets the static header and keeps its viewport,
    and one without [virtualized] is not virtualised. *)
Theorem scrolling_defaults coerces (config : value) :
  (_normalizeScrollingConfig coerces config = None ↔ nullish config = true)
  ∧ (nullish config = false →
     ∃ sc,
       _normalizeScrollingConfig coerces config = Some sc
       ∧ (prop config "header" = VUndefined →
          get sc "header" = VObject {[ "type" := VString "static" ]}
          ∧ get sc "viewport" = prop config "viewport")
       ∧ (prop config "virtualized" = VUndefined →
          get sc "virtualized" = VBool false)).
Proof.
  split; [apply normalizeScrolling_none|].
  intros Hnull.
  destruct (normalizeScrolling_some coerces config Hnull)
    as (sc & Hsc & Hheader & Hvirt & Hviewport).
  exists sc. split; [done|]. split.
  - intros Hundef. rewrite Hundef in Hheader, Hviewport.
    split; [exact Hheader|exact Hviewport].
  - intros Hundef. by rewrite Hundef in Hvirt.
Qed.

(** The theorem at the empty configuration and at a number. *)
Lemma scrolling_defaults_witness :
  (∃ sc,
     _normalizeScrollingConfig Underscore.noCoercion (VObject ∅) = Some sc
     ∧ get sc "header" = VObject {[ "type" := VString "static" ]}
     ∧ get sc "virtualized" = VBool false)
  ∧ ∃ sc,
      _normalizeScrollingConfig Underscore.noCoercion (num 3) = Some sc
      ∧ get sc "virtualized" = VBool false.
Proof.
  split.
  - destruct (proj2 (scrolling_defaults Underscore.noCoercion (VObject ∅)))
      as (sc & Hsc & Hheader & Hvirt); [reflexivity|].
    exists sc. split; [done|]. split.
    + apply Hheader. reflexivity.
    + apply Hvirt. reflexivity.
  - destruct (proj2 (scrolling_defaults Underscore.noCoercion (num 3)))
      as (sc & Hsc & _ & Hvirt); [reflexivity|].
    exists sc. split; [done|]. apply Hvirt. reflexivity.
Defined.

Lemma nullish_orDefault (v d : value) :
  nullish d = false →
  nullish (orDefault v d) = match v with VNull => true | _ => false end.
Proof. intros Hd. destruct v; try done. Qed.

(** The view a successful [initialize] builds, in terms of the header
    configuration it normalised. *)
Lemma initialize_some coerces (options : value) :
  nullish options = false →
  prop options "scrolling" ≠ VNull →
  ∃ c,
    initialize coerces options = Some c
    ∧ view c = initialView
    ∧ header c
      = _normalizeHeaderConfig coerces
          (orDefault (prop (prop options "scrolling") "header")
             (VString "static"))
    ∧ get (listViewOptions c) "viewport"
      = (if is_str "fixed" (headerType c) then VString ".viewport"
         else prop (prop options "scrolling") "viewport").
Proof.
  intros Hopt Hscr. unfold initialize. rewrite Hopt.
  set (scrolling := orDefault (prop options "scrolling") (VObject ∅)).
  assert (nullish scrolling = false) as Hnull.
  { subst scrolling. rewrite nullish_orDefault by done.
    by destruct (prop options "scrolling"). }
  assert (∀ key, prop scrolling key = prop (prop options "scrolling") key)
    as Hprop.
  { intros key. subst scrolling. by destruct (prop options "scrolling"). }
  destruct (normalizeScrolling_some coerces scrolling Hnull)
    as (sc & -> & Hheader & _ & Hviewport).
  rewrite !Hprop in Hheader, Hviewport.
  eexists. split; [done|]. split; [done|].
  unfold headerType, header. cbn [_props listViewOptions].
  rewrite get_insert, decide_False by done.
  rewrite get_insert, decide_True by done.
  rewrite get_insert, decide_True by done.
  change (prop (VObject sc) "header") with (get sc "header").
  rewrite Hheader, Hviewport, (Hprop "viewport"). cbn [props]. done.
Qed.

Lemma initialize_none coerces (options : value) :
  initialize coerces options = None ↔
  nullish options = true ∨ prop options "scrolling" = VNull.
Proof.
  split.
  - intros H. destruct (nullish options) eqn:Hopt; [by left|]. right.
    destruct (prop options "scrolling") eqn:Hscr; try done; exfalso;
      (destruct (initialize_some coerces options Hopt) as (c & Hc & _);
       [rewrite Hscr; discriminate|congruence]).
  - unfold initialize. intros [->|Hscr]; [done|].
    destruct (nullish options); [done|]. by rewrite Hscr.
Qed.

(** X8.  The destructuring of [initialize] throws exactly when the
    options are [null] or [undefined] or bind [scrolling] to [null].
    Otherwise the view starts from the empty table state, its header type
    is 'static', 'fixed' or 'sticky', and the list view is created on
    ['.viewport'] when the header is fixed and on the configured viewport
    otherwise. *)
Theorem initialize_outcome coerces (options : value) :
  (initialize coerces options = None ↔
   nullish options = true ∨ prop options "scrolling" = VNull)
  ∧ ∀ c, initialize coerces options = Some c →
      view c = initialView
      ∧ (headerType c = VString "static" ∨ headerType c = VString "fixed"
         ∨ headerType c = VString "sticky")
      ∧ (headerType c = VString "fixed" →
         get (listViewOptions c) "viewport" = VString ".viewport")
      ∧ (headerType c ≠ VString "fixed" →
         get (listViewOptions c) "viewport"
         = prop (prop options "scrolling") "viewport").
Proof.
  split; [apply initialize_none|].
  intros c Hc.
  destruct (initialize_some coerces options) as (c' & Hc' & Hview & Hh & Hvp).
  { apply not_true_iff_false. intros H.
    assert (initialize coerces options = None) by (apply initialize_none; tauto).
    congruence. }
  { intros H.
    assert (initialize coerces options = None) by (apply initialize_none; tauto).
    congruence. }
  assert (c' = c) as -> by congruence.
  split; [done|]. split.
  - unfold headerType. rewrite Hh.
    apply header_type_cases, normalized_type_valid.
  - rewrite Hvp. split.
    + intros ->. reflexivity.
    + intros Hne. destruct (is_str "fixed" (headerType c)) eqn:E; [|done].
      by apply is_str_true in E.
Qed.

(** The theorem at options that ask for a fixed header and a viewport. *)
Lemma initialize_outcome_witness :
  ∃ c,
    initialize Underscore.noCoercion fixedOptions = Some c
    ∧ get (listViewOptions c) "viewport" = VString ".viewport".
Proof.
  pose proof (proj2 (initialize_outcome Underscore.noCoercion fixedOptions)
                _ eq_refl) as (_ & _ & Hfixed & _).
  eexists. split; [reflexivity|]. apply Hfixed. reflexivity.
Defined.

Lemma normalized_offset_resolves_zero coerces (config : value) :
  get (_normalizeHeaderConfig coerces config) "type" = VString "sticky" →
  Underscore.isFinite coerces
    (Underscore.result (_normalizeHeaderConfig coerces config) "offset"
       (num 0)) = true.
Proof.
  intros Hty. pose proof (normalized_offset_resolves coerces config Hty) as H.
  by rewrite (result_fallback coerces _ _ _ H).
Qed.

Lemma render_cases (c : Constructed) :
  (headerType c = VString "fixed" → render c = _renderFixed)
  ∧ (headerType c = VString "sticky" → render c = _renderSticky)
  ∧ (headerType c = VString "static" → render c = _renderStatic).
Proof.
  unfold render. fold (headerType c).
  repeat split; intros ->; reflexivity.
Qed.

(** X9.  On a constructed view [render] runs the pipeline of the header
    type and no other: the width handler is put on [didRedraw] exactly for
    a fixed header, and then the list view scrolls ['.viewport']; the
    sticky positioner is hooked up exactly for a sticky header, and then
    its offset resolves to a value that [_.isFinite] accepts; and the
    static template is used exactly for a static header. *)
Theorem render_pipeline coerces (options : value) (c : Constructed) :
  initialize coerces options = Some c →
  (syncsWidth (render c) = true ↔ headerType c = VString "fixed")
  ∧ (syncsWidth (render c) = true →
     get (listViewOptions c) "viewport" = VString ".viewport")
  ∧ (hooksSticky (render c) = true ↔ headerType c = VString "sticky")
  ∧ (hooksSticky (render c) = true →
     Underscore.isFinite coerces
       (Underscore.result (header c) "offset" (num 0)) = true)
  ∧ (listTemplate (render c) = tableStaticTemplate ↔
     headerType c = VString "static").
Proof.
  intros Hc.
  destruct (initialize_some coerces options) as (c' & Hc' & _ & Hh & Hvp).
  { apply not_true_iff_false. intros H.
    assert (initialize coerces options = None) by (apply initialize_none; tauto).
    congruence. }
  { intros H.
    assert (initialize coerces options = None) by (apply initialize_none; tauto).
    congruence. }
  assert (c' = c) as -> by congruence.
  assert (headerType c = VString "static" ∨ headerType c = VString "fixed"
          ∨ headerType c = VString "sticky") as Hcases.
  { unfold headerType. rewrite Hh.
    apply header_type_cases, normalized_type_valid. }
  destruct (render_cases c) as (Hfixed & Hsticky & Hstatic).
  destruct Hcases as [H|[H|H]];
    [rewrite (Hstatic H)|rewrite (Hfixed H)|rewrite (Hsticky H)];
    rewrite ?H; repeat split; intros; try done; try discriminate.
  - rewrite Hvp, H. reflexivity.
  - rewrite Hh. apply normalized_offset_resolves_zero.
    unfold headerType in H. by rewrite Hh in H.
Qed.

(** The theorem at options that give the header a number. *)
Lemma render_pipeline_witness :
  ∃ c,
    initialize Underscore.noCoercion stickyOptions = Some c
    ∧ hooksSticky (render c) = true
    ∧ listTemplate (render c) = tableStickyTemplate.
Proof.
  pose proof (render_pipeline Underscore.noCoercion stickyOptions _ eq_refl)
    as (_ & _ & Hsticky & _).
  eexists. split; [reflexivity|]. split.
  - apply Hsticky. reflexivity.
  - reflexivity.
Defined.

(** ** Updates of the table state *)

(** [set] in terms of the update alone: when [bodyRows] is set, the merged
    state holds the update's rows. *)
Lemma set_unfold (this : TableView) (state : gmap string value) :
  set this state =
  let merged := Underscore.extend (_state this)
                  (Underscore.pick state STATE_OPTIONS) in
  let rows := get state "bodyRows" in
  if negb (Underscore.isUndefined rows) && nullish rows then
    Threw {| _state := merged;
             columnGroup := columnGroup this;
             headerRedraws := headerRedraws this;
             footerRedraws := footerRedraws this;
             listViewSets := listViewSets this |}
  else
    Returned
      {| _state := merged;
         columnGroup := merged;
         headerRedraws := S (headerRedraws this);
         footerRedraws := S (footerRedraws this);
         listViewSets :=
           listViewSets this
           ++ [{| items := if negb (Underscore.isUndefined rows)
                           then Some (Items.Over rows) else None;
                  events := if negb (Underscore.isUndefined
                                       (get state "events"))
                            then Some (get state "events") else None |}] |}.
Proof.
  unfold set. cbv zeta. rewrite get_extend_pick.
  rewrite decide_True by (unfold STATE_OPTIONS; rewrite !elem_of_cons; tauto).
  destruct (state !! "bodyRows") as [rows|] eqn:E.
  - assert (get state "bodyRows" = rows) as -> by (unfold get; by rewrite E).
    reflexivity.
  - assert (get state "bodyRows" = VUndefined) as ->
      by (unfold get; by rewrite E).
    reflexivity.
Qed.

Lemma pick_none (o : gmap string value) (keys : list string) :
  (∀ k, k ∈ keys → o !! k = None) → Underscore.pick o keys = ∅.
Proof.
  intros Hnone. apply map_eq. intros k. rewrite lookup_pick, lookup_empty.
  case_decide; [by apply Hnone|done].
Qed.

(** X10.  An update that holds none of the state keys, the empty update
    among them, leaves the table state as it is; the call redraws the
    column group, the header and the footer, and hands the list view a list
    state with neither [items] nor [events]. *)
Theorem set_without_state_keys (this : TableView)
  (state : gmap string value) :
  (∀ k, k ∈ STATE_OPTIONS → state !! k = None) →
  set this state =
  Returned {| _state := _state this;
              columnGroup := _state this;
              headerRedraws := S (headerRedraws this);
              footerRedraws := S (footerRedraws this);
              listViewSets :=
                listViewSets this ++ [{| items := None; events := None |}] |}.
Proof.
  intros Hnone. rewrite set_unfold, (pick_none _ _ Hnone).
  unfold Underscore.extend. rewrite (left_id_L ∅ (∪)).
  assert (∀ k, k ∈ STATE_OPTIONS → get state k = VUndefined) as Hget.
  { intros k Hk. unfold get. by rewrite Hnone. }
  rewrite !Hget by (unfold STATE_OPTIONS; rewrite !elem_of_cons; tauto).
  reflexivity.
Qed.

(** The theorem at the empty update and at one with a foreign key. *)
Lemma set_without_state_keys_witness :
  _state (after (set initialView ∅)) = initialState
  ∧ _state (after (set initialView {[ "rows" := VArray [VNull] ]}))
    = initialState.
Proof.
  split.
  - rewrite (set_without_state_keys initialView ∅); [reflexivity|].
    intros k _. apply lookup_empty.
  - rewrite (set_without_state_keys initialView
               {[ "rows" := VArray [VNull] ]}); [reflexivity|].
    intros k Hk. apply lookup_singleton_ne. intros <-.
    unfold STATE_OPTIONS in Hk. rewrite !elem_of_cons, elem_of_nil in Hk.
    intuition discriminate.
Defined.

(** X11.  Updates compose: one call after another leaves the table state
    that the single call with both updates leaves, the later update
    winning on the keys they share. *)
Theorem set_composes (this : TableView) (first second : gmap string value) :
  _state (after (set (after (set this first)) second))
  = _state (after (set this (second ∪ first))).
Proof.
  apply map_eq. intros key. rewrite !set_state_lookup, lookup_union.
  case_decide; [|done].
  by destruct (second !! key), (first !! key).
Qed.

Lemma initialState_keys (key : string) :
  is_Some (initialState !! key) ↔ key ∈ STATE_OPTIONS.
Proof.
  unfold initialState, STATE_OPTIONS.
  rewrite !elem_of_cons, elem_of_nil.
  repeat (rewrite lookup_insert; case_decide;
          [subst; split;
           [intros _; repeat (first [left; reflexivity|right])
           |intros _; by eexists]|]).
  rewrite lookup_empty. split.
  - by intros ?%is_Some_None.
  - intuition congruence.
Qed.

Lemma set_keeps_keys (this : TableView) (state : gmap string value) :
  (∀ key, is_Some (_state this !! key) ↔ key ∈ STATE_OPTIONS) →
  ∀ key, is_Some (_state (after (set this state)) !! key)
         ↔ key ∈ STATE_OPTIONS.
Proof.
  intros Hthis key. rewrite set_state_lookup.
  case_decide as Hkey; [|apply Hthis].
  split; [done|]. intros _.
  destruct (state !! key); [by eexists|]. by apply Hthis.
Qed.

(** X12.  Whatever updates are set on a new view, in whatever order and
    whether the calls return or throw, the table state has the five state
    keys and no other. *)
Theorem sets_keep_state_keys (updates : list (gmap string value))
  (key : string) :
  is_Some (_state (sets updates initialView) !! key) ↔ key ∈ STATE_OPTIONS.
Proof.
  assert (∀ this,
            (∀ key, is_Some (_state this !! key) ↔ key ∈ STATE_OPTIONS) →
            ∀ key, is_Some (_state (sets updates this) !! key)
                   ↔ key ∈ STATE_OPTIONS) as Hrun.
  { induction updates as [|state updates IH]; intros this Hthis; [done|].
    unfold sets. cbn [foldl]. apply IH. by apply set_keeps_keys. }
  apply Hrun. apply initialState_keys.
Qed.

(** X13.  When the update binds [bodyRows] to [null], [set] throws on
    reading the length of the rows.  It has by then merged the update, so
    the stored body rows are [null] and the other state keys of the update
    are stored too; but nothing is redrawn and nothing reaches the list
    view. *)
Theorem set_null_body_rows (this : TableView) (state : gmap string value) :
  state !! "bodyRows" = Some VNull →
  returned (set this state) = false
  ∧ _state (after (set this state))
    = Underscore.extend (_state this) (Underscore.pick state STATE_OPTIONS)
  ∧ get (_state (after (set this state))) "bodyRows" = VNull
  ∧ columnGroup (after (set this state)) = columnGroup this
  ∧ headerRedraws (after (set this state)) = headerRedraws this
  ∧ footerRedraws (after (set this state)) = footerRedraws this
  ∧ forwarded this (after (set this state)) = [].
Proof.
  intros Hnull. rewrite set_unfold.
  assert (get state "bodyRows" = VNull) as Hget
    by (unfold get; by rewrite Hnull).
  cbv zeta. rewrite Hget.
  cbn [Underscore.isUndefined nullish negb andb after returned
       _state columnGroup headerRedraws footerRedraws].
  repeat split.
  - rewrite get_extend_pick, Hnull.
    by rewrite decide_True
      by (unfold STATE_OPTIONS; rewrite !elem_of_cons; tauto).
  - apply forwarded_same.
Qed.

(** The theorem on a new view. *)
Lemma set_null_body_rows_witness :
  get (_state (after (set initialView
                        (<["bodyRows" := VNull]> {[ "cols" := VArray [VNull] ]}))))
    "cols" = VArray [VNull]
  ∧ headerRedraws (after (set initialView
                            (<["bodyRows" := VNull]>
                               {[ "cols" := VArray [VNull] ]}))) = 0.
Proof.
  destruct (set_null_body_rows initialView
              (<["bodyRows" := VNull]> {[ "cols" := VArray [VNull] ]}))
    as (_ & Hstate & _ & _ & Hheader & _); [reflexivity|].
  split.
  - rewrite Hstate. reflexivity.
  - rewrite Hheader. reflexivity.
Defined.

Lemma rowOf_wrapped (rows : list value) :
  map rowOf (map (λ row, VObject {[ "row" := row ]}) rows) = rows.
Proof.
  induction rows as [|row rows IH]; [done|].
  cbn [map]. rewrite IH. reflexivity.
Qed.

(** X14.  The items view over an array of rows has the length of the
    array; a slice, unwrapped, is the rows of its range, so the slice of
    the whole range gives the rows back, in order; and a slice that starts
    at or after the end is empty. *)
Theorem items_round_trip (rows : list value) :
  let it := Items.Over (VArray rows) in
  Items.length it = Some (List.length rows)
  ∧ (∀ start stop, ∃ slice,
       Items.slice it start stop = Some slice
       ∧ map rowOf slice = take (stop - start) (drop start rows))
  ∧ (∃ slice, Items.slice it 0 (List.length rows) = Some slice
              ∧ map rowOf slice = rows)
  ∧ (∀ start stop : nat, (List.length rows ≤ start)%nat →
                   Items.slice it start stop = Some []).
Proof.
  intros it. subst it. split; [done|]. split; [|split].
  - intros start stop. eexists. split; [done|]. apply rowOf_wrapped.
  - eexists. split; [done|]. rewrite rowOf_wrapped, Nat.sub_0_r.
    cbn [drop]. apply firstn_all.
  - intros start stop Hstart. unfold Items.slice. cbn [Items.bodyRows].
    by rewrite drop_ge, take_nil by done.
Qed.

(** The theorem on three rows. *)
Lemma items_round_trip_witness :
  Items.slice (Items.Over (VArray [VNull; VBool true; VNull])) 3 7 = Some [].
Proof.
  apply (items_round_trip [VNull; VBool true; VNull]). cbn. lia.
Defined.

(** X15.  Adjacent windows of an items view join: for [a ≤ b ≤ c] the
    slice from [a] to [b] followed by the slice from [b] to [c] is the slice
    from [a] to [c]. *)
Theorem items_windows_join (rows : list value) (a b c : nat) :
  (a ≤ b)%nat → (b ≤ c)%nat →
  let it := Items.Over (VArray rows) in
  ∃ left right,
    Items.slice it a b = Some left
    ∧ Items.slice it b c = Some right
    ∧ Items.slice it a c = Some (left ++ right).
Proof.
  intros Hab Hbc it. subst it. do 2 eexists.
  split; [done|]. split; [done|].
  unfold Items.slice. cbn [Items.bodyRows]. f_equal.
  rewrite <- map_app. f_equal.
  replace (drop b rows) with (drop (b - a) (drop a rows))
    by (rewrite drop_drop; f_equal; lia).
  rewrite take_take_drop. f_equal. lia.
Qed.

(** The theorem on four rows. *)
Lemma items_windows_join_witness :
  ∃ left right,
    Items.slice (Items.Over (VArray [VNull; VBool true; VBool false; VNull]))
      1 2 = Some left
    ∧ Items.slice (Items.Over (VArray [VNull; VBool true; VBool false; VNull]))
        2 4 = Some right
    ∧ Items.slice (Items.Over (VArray [VNull; VBool true; VBool false; VNull]))
        1 4 = Some (left ++ right).
Proof.
  apply (items_windows_join [VNull; VBool true; VBool false; VNull] 1 2 4);
    lia.
Defined.

(** X16.  When the update binds [bodyRows] to an array, [set] does not
    throw on it, the array is stored, and the list view is handed one list
    state, whose items view is over that very array; its [events] are those
    of the update, when the update has any. *)
Theorem set_forwards_body_rows (this : TableView)
  (state : gmap string value) (rows : list value) :
  state !! "bodyRows" = Some (VArray rows) →
  returned (set this state) = true
  ∧ get (_state (after (set this state))) "bodyRows" = VArray rows
  ∧ ∃ listState,
      forwarded this (after (set this state)) = [listState]
      ∧ items listState = Some (Items.Over (VArray rows))
      ∧ events listState
        = (if Underscore.isUndefined (get state "events") then None
           else Some (get state "events")).
Proof.
  intros Hrows. split; [by rewrite set_returned, Hrows|].
  rewrite set_unfold.
  assert (get state "bodyRows" = VArray rows) as Hget
    by (unfold get; by rewrite Hrows).
  cbv zeta. rewrite Hget.
  cbn [Underscore.isUndefined nullish negb andb after _state].
  split.
  - rewrite get_extend_pick, Hrows.
    by rewrite decide_True
      by (unfold STATE_OPTIONS; rewrite !elem_of_cons; tauto).
  - rewrite forwarded_app. eexists. split; [done|]. split; [done|].
    cbn [events]. by destruct (Underscore.isUndefined (get state "events")).
Qed.

(** The theorem on a new view, with two rows and a handler. *)
Lemma set_forwards_body_rows_witness :
  ∃ listState,
    forwarded initialView
      (after (set initialView
                (<["bodyRows" := VArray [VNull; VNull]]>
                   {[ "events" := VObject {[ "click" := VFunction VNull ]} ]})))
    = [listState]
    ∧ items listState = Some (Items.Over (VArray [VNull; VNull]))
    ∧ events listState = Some (VObject {[ "click" := VFunction VNull ]}).
Proof.
  destruct (set_forwards_body_rows initialView
              (<["bodyRows" := VArray [VNull; VNull]]>
                 {[ "events" := VObject {[ "click" := VFunction VNull ]} ]})
              [VNull; VNull])
    as (_ & _ & listState & Hforwarded & Hitems & Hevents); [reflexivity|].
  exists listState. split; [exact Hforwarded|]. split; [exact Hitems|].
  rewrite Hevents. reflexivity.
Defined.

(** ** More on the sticky positioner *)

Ltac style_cases :=
  unfold Css.css; cbn [foldl app]; rewrite ?lookup_assign;
  repeat case_decide; simplify_eq; try done.

(** X17.  On a visible tick in the window case: when the container top is
    above [V + O] the filler takes the height of the sticky header and the
    header is put at the left of the container; otherwise the filler has no
    height and the header no top and no left of its own. *)
Theorem window_engaged_styles (s : Sample) (st : StickyState) :
  visible s = true →
  let threshold := (Box.top (metricsVP s) + offset s)%Q in
  let st' := adjustStickyHeader true s st in
  ((Box.top (rectContainer s) < threshold)%Q →
   stickyHeaderFiller st' !! "height" = Some (Css.Px (stickyHeaderHeight s))
   ∧ stickyHeader st' !! "left"
     = Some (Css.Px (Box.left (rectContainer s))))
  ∧ (¬ (Box.top (rectContainer s) < threshold)%Q →
     stickyHeaderFiller st' !! "height" = None
     ∧ stickyHeader st' !! "left" = None
     ∧ stickyHeader st' !! "top" = None).
Proof.
  intros Hvis threshold st'. subst st'. unfold adjustStickyHeader.
  rewrite Hvis. cbn [negb]. fold threshold.
  destruct (Qltb (Box.top (rectContainer s)) threshold) eqn:E.
  - apply Qltb_lt in E. split; [|done]. intros _.
    destruct (resize s st); cbn [stickyHeader stickyHeaderFiller];
      split; style_lookup; done.
  - apply Qltb_ge, Qle_not_lt in E. split; [done|]. intros _.
    destruct (resize s st); cbn [stickyHeader stickyHeaderFiller];
      repeat split; style_lookup; done.
Qed.

(** The theorem below the threshold and above it. *)
Lemma window_engaged_styles_witness :
  stickyHeaderFiller (adjustStickyHeader true (sampleAt true 10) freshSticky)
    !! "height" = Some (Css.Px 32)
  ∧ stickyHeaderFiller (adjustStickyHeader true (sampleAt true 50) freshSticky)
      !! "height" = None.
Proof.
  split.
  - apply (window_engaged_styles (sampleAt true 10) freshSticky);
      reflexivity.
  - apply (window_engaged_styles (sampleAt true 50) freshSticky);
      [reflexivity|]. intros H. discriminate H.
Defined.

(** X18.  A tick writes the display and the height of the filler, the
    position, top, left and width of the sticky header and the width of the
    table, and no other inline property of theirs.  In the nested case it
    writes less: the display of the filler and the position and top of the
    header only, leaving the table and the stored viewport size alone. *)
Theorem tick_frame (isWindow : bool) (s : Sample) (st : StickyState)
  (k : string) :
  let st' := adjustStickyHeader isWindow s st in
  (k ∉ ["display"; "height"] →
   stickyHeaderFiller st' !! k = stickyHeaderFiller st !! k)
  ∧ (k ∉ ["position"; "top"; "left"; "width"] →
     stickyHeader st' !! k = stickyHeader st !! k)
  ∧ (k ≠ "width" → table st' !! k = table st !! k)
  ∧ (isWindow = false →
     (k ≠ "display" →
      stickyHeaderFiller st' !! k = stickyHeaderFiller st !! k)
     ∧ (k ∉ ["position"; "top"] →
        stickyHeader st' !! k = stickyHeader st !! k)
     ∧ table st' = table st
     ∧ viewportSize st' = viewportSize st).
Proof.
  intros st'. subst st'. unfold adjustStickyHeader.
  rewrite !elem_of_cons, !elem_of_nil.
  destruct (visible s); cbn [negb]; [|by repeat split].
  destruct isWindow.
  - destruct (resize s st), (Qltb _ _);
      cbn [stickyHeader stickyHeaderFiller table viewportSize];
      (split; [|split; [|split]]); try discriminate;
      try (intros Hk; style_cases; exfalso; apply Hk; tauto).
  - cbn [stickyHeader stickyHeaderFiller table viewportSize].
    (split; [|split; [|split; [|intros _; split; [|split; [|split]]]]]);
      try done;
      try (intros Hk; style_cases; exfalso; apply Hk; tauto).
Qed.

(** The theorem on a header that carries a background. *)
Lemma tick_frame_witness :
  stickyHeader
    (adjustStickyHeader true (sampleAt true 10)
       (hookedUp {[ "background" := Css.Keyword "white" ]} ∅ ∅))
  !! "background" = Some (Css.Keyword "white").
Proof.
  rewrite (proj1 (proj2 (tick_frame true (sampleAt true 10)
                           (hookedUp {[ "background" := Css.Keyword "white" ]}
                              ∅ ∅) "background"))).
  - reflexivity.
  - rewrite !elem_of_cons, elem_of_nil. intuition discriminate.
Defined.

Lemma Qgeb_abs_self (w : Q) : Qgeb (Qabs (w - w)) 1 = false.
Proof.
  apply not_true_iff_false. intros H%Qgeb_le.
  assert (Qabs (w - w) == 0) as Hzero.
  { assert (w - w == 0) as -> by ring. reflexivity. }
  rewrite Hzero in H. by apply Qle_not_lt in H.
Qed.

(** Right after a visible tick in the window case, the size test is
    negative on the same sample. *)
Lemma resize_after_tick (s : Sample) (st : StickyState) :
  visible s = true → resize s (adjustStickyHeader true s st) = false.
Proof.
  intros Hvis.
  pose proof (window_tick_widths s st Hvis) as H. cbv zeta in H.
  destruct (resize s st) eqn:E.
  - destruct H as (_ & _ & Hsize). unfold resize. rewrite Hsize.
    cbn [Size.width Size.height]. by rewrite !Qgeb_abs_self.
  - destruct H as (_ & _ & Hsize). unfold resize. rewrite Hsize. exact E.
Qed.

(** X19.  A notification that finds the geometry as the last one left it
    changes nothing: the tick on a sample, repeated on the same sample, is
    the tick done once. *)
Theorem tick_idempotent (isWindow : bool) (s : Sample) (st : StickyState) :
  adjustStickyHeader isWindow s (adjustStickyHeader isWindow s st)
  = adjustStickyHeader isWindow s st.
Proof.
  destruct (visible s) eqn:Hvis.
  2:{ unfold adjustStickyHeader. by rewrite Hvis. }
  destruct isWindow.
  - pose proof (resize_after_tick s st Hvis) as Hagain.
    set (st1 := adjustStickyHeader true s st) in *.
    assert (∀ k, stickyHeader (adjustStickyHeader true s st1) !! k
                 = stickyHeader st1 !! k
                 ∧ stickyHeaderFiller (adjustStickyHeader true s st1) !! k
                   = stickyHeaderFiller st1 !! k) as Hstyles.
    { intros k. unfold adjustStickyHeader at 1 2. rewrite Hvis, Hagain.
      cbn [negb stickyHeader stickyHeaderFiller].
      subst st1. unfold adjustStickyHeader. rewrite Hvis. cbn [negb].
      destruct (resize s st), (Qltb _ _);
        cbn [stickyHeader stickyHeaderFiller]; split; style_cases. }
    assert (table (adjustStickyHeader true s st1) = table st1
            ∧ viewportSize (adjustStickyHeader true s st1) = viewportSize st1)
      as [Htable Hsize].
    { unfold adjustStickyHeader at 1 2. by rewrite Hvis, Hagain. }
    destruct (adjustStickyHeader true s st1) as [h1 f1 t1 v1],
      st1 as [h0 f0 t0 v0].
    cbn [stickyHeader stickyHeaderFiller table viewportSize] in *.
    f_equal; try done; apply map_eq; intros k; apply Hstyles.
  - unfold adjustStickyHeader. rewrite Hvis.
    cbn [negb stickyHeader stickyHeaderFiller table viewportSize].
    f_equal; apply map_eq; intros k; style_cases.
Qed.

(** X20.  After a visible tick in the window case the stored viewport size
    is less than one pixel away, in width and in height, from the size just
    sampled. *)
Theorem stored_size_within_a_pixel (s : Sample) (st : StickyState) :
  visible s = true →
  let st' := adjustStickyHeader true s st in
  (Qabs (Box.width (metricsVP s) - Size.width (viewportSize st')) < 1)%Q
  ∧ (Qabs (Box.height (metricsVP s) - Size.height (viewportSize st')) < 1)%Q.
Proof.
  intros Hvis st'.
  pose proof (resize_after_tick s st Hvis) as H. fold st' in H.
  unfold resize in H. apply orb_false_iff in H as [Hw Hh].
  split; apply Qnot_le_lt; intros Hle%Qgeb_le; congruence.
Qed.

(** The theorem on the first tick after hook-up. *)
Lemma stored_size_within_a_pixel_witness :
  (Qabs (1280 - Size.width
                  (viewportSize
                     (adjustStickyHeader true (sampleAt true 10) freshSticky)))
   < 1)%Q.
Proof.
  apply (stored_size_within_a_pixel (sampleAt true 10) freshSticky).
  reflexivity.
Defined.

Lemma tick_keeps_widths_equal (isWindow : bool) (s : Sample)
  (st : StickyState) :
  stickyHeader st !! "width" = table st !! "width" →
  stickyHeader (adjustStickyHeader isWindow s st) !! "width"
  = table (adjustStickyHeader isWindow s st) !! "width".
Proof.
  intros Heq. destruct (visible s) eqn:Hvis.
  2:{ unfold adjustStickyHeader. by rewrite Hvis. }
  destruct isWindow.
  - pose proof (window_tick_widths s st Hvis) as H. cbv zeta in H.
    destruct (resize s st).
    + destruct H as (-> & -> & _). done.
    + destruct H as (-> & -> & _). done.
  - unfold adjustStickyHeader. rewrite Hvis.
    cbn [negb stickyHeader table]. by style_lookup.
Qed.

(** X21.  The inline widths of the sticky header and of the table stay
    equal: when they are equal before a run of ticks, visible or not, in
    either viewport case, they are equal after it. *)
Theorem ticks_keep_widths_equal (isWindow : bool) (samples : list Sample)
  (st : StickyState) :
  stickyHeader st !! "width" = table st !! "width" →
  stickyHeader (ticks isWindow samples st) !! "width"
  = table (ticks isWindow samples st) !! "width".
Proof.
  revert st. induction samples as [|s samples IH]; intros st Heq; [done|].
  unfold ticks. cbn [foldl]. apply IH. by apply tick_keeps_widths_equal.
Qed.

(** The theorem on a run over a resize of the viewport. *)
Lemma ticks_keep_widths_equal_witness :
  let samples :=
    [sampleAt true 10; sampleAt false 10;
     {| visible := true;
        metricsVP := Box.Make 0 0 1024 720;
        offset := 20;
        rectContainer := Box.Make (-40) 8 800 4000;
        stickyHeaderHeight := 32;
        tableHeight := 4000;
        tableContainerWidth := 800 |}] in
  stickyHeader (ticks true samples freshSticky) !! "width"
  = table (ticks true samples freshSticky) !! "width".
Proof.
  intros samples.
  apply (ticks_keep_widths_equal true samples freshSticky). reflexivity.
Defined.

(** X22.  In the nested case the header never moves back up as the
    container scrolls further: of two visible ticks on a table of the same
    height, the one with the larger [V + O - T] puts the header at least as
    low. *)
Theorem nested_offset_monotone (s1 s2 : Sample) (st1 st2 : StickyState) :
  visible s1 = true → visible s2 = true →
  tableHeight s1 == tableHeight s2 →
  (Box.top (metricsVP s1) + offset s1 - Box.top (rectContainer s1)
   <= Box.top (metricsVP s2) + offset s2 - Box.top (rectContainer s2))%Q →
  ∃ top1 top2,
    stickyHeader (adjustStickyHeader false s1 st1) !! "top"
    = Some (Css.Px top1)
    ∧ stickyHeader (adjustStickyHeader false s2 st2) !! "top"
      = Some (Css.Px top2)
    ∧ (top1 <= top2)%Q.
Proof.
  intros Hvis1 Hvis2 Hheight Hle.
  destruct (nested_tick_styles s1 st1 Hvis1) as (_ & _ & Htop1).
  destruct (nested_tick_styles s2 st2 Hvis2) as (_ & _ & Htop2).
  do 2 eexists. split; [exact Htop1|]. split; [exact Htop2|].
  apply Q.min_le_compat.
  - by apply Q.max_le_compat_r.
  - rewrite Hheight. apply Qle_refl.
Qed.

(** The theorem on two positions of the container. *)
Lemma nested_offset_monotone_witness :
  ∃ top1 top2,
    stickyHeader (adjustStickyHeader false (sampleAt true (-100)) freshSticky)
      !! "top" = Some (Css.Px top1)
    ∧ stickyHeader
        (adjustStickyHeader false (sampleAt true (-600)) freshSticky)
        !! "top" = Some (Css.Px top2)
    ∧ (top1 <= top2)%Q.
Proof.
  apply (nested_offset_monotone (sampleAt true (-100)) (sampleAt true (-600))
           freshSticky freshSticky);
    try reflexivity; discriminate.
Defined.

(** ** More on the fixed header *)

(** X23.  A body redraw writes the two widths and nothing else, and a
    second redraw that measures the same widths changes nothing.  When the
    viewport is no wider than the root element, the component is at least
    as wide as the body table, and exactly as wide when there is no
    scrollbar. *)
Theorem fixed_redraw_settles (m : Widths) (st : FixedState) :
  didRedrawFixed m (didRedrawFixed m st) = didRedrawFixed m st
  ∧ (∀ k, k ≠ "width" →
          el (didRedrawFixed m st) !! k = el st !! k
          ∧ fixedHeader (didRedrawFixed m st) !! k = fixedHeader st !! k)
  ∧ ((viewportClientWidth m <= elClientWidth m)%Q →
     ∃ w, el (didRedrawFixed m st) !! "width" = Some (Css.Px w)
          ∧ (tableOffsetWidth m <= w)%Q
          ∧ (viewportClientWidth m == elClientWidth m →
             w == tableOffsetWidth m)).
Proof.
  split; [|split].
  - unfold didRedrawFixed. cbn [el fixedHeader].
    f_equal; apply map_eq; intros k; style_cases.
  - intros k Hk. unfold didRedrawFixed. cbn [el fixedHeader].
    split; style_cases.
  - intros Hle. eexists. split.
    + unfold didRedrawFixed. cbn [el]. style_lookup. reflexivity.
    + split; [lra|]. intros Heq. lra.
Qed.

(** The theorem with a scrollbar of 15 pixels. *)
Lemma fixed_redraw_settles_witness :
  ∃ w,
    el (didRedrawFixed
          {| viewportClientWidth := 785; elClientWidth := 800;
             tableOffsetWidth := 800 |}
          {| el := ∅; fixedHeader := ∅ |}) !! "width" = Some (Css.Px w)
    ∧ (800 <= w)%Q.
Proof.
  destruct (proj2 (proj2 (fixed_redraw_settles
                            {| viewportClientWidth := 785;
                               elClientWidth := 800;
                               tableOffsetWidth := 800 |}
                            {| el := ∅; fixedHeader := ∅ |})))
    as (w & Hw & Hle & _); [discriminate|].
  exists w. split; [exact Hw|exact Hle].
Defined.

(** ** More on looking a row up *)

(** The result for a node of the list view whose nearest enclosing [tr] is
    the child [k] of the element at [above]. *)
Lemma indexOfElement_nearest (lv : ListView) (above : list nat) (k : nat)
  (below : list nat) :
  root lv `prefix_of` above ++ k :: below →
  above ++ k :: below ≠ root lv →
  is_Some (Dom.at_ (above ++ k :: below) (document lv)) →
  Dom.matches (document lv) "tr" (above ++ [k]) = true →
  (∀ inner, inner ≠ [] → inner `prefix_of` below →
     Dom.matches (document lv) "tr" (above ++ k :: inner) = false) →
  indexOfElement lv (above ++ k :: below)
  = Some (Z.of_nat k + indexFirst lv - 1)%Z.
Proof.
  intros Hroot Hne Hat Hrow Hinner. unfold indexOfElement.
  rewrite find_inside by done. unfold Dom.closest.
  replace (rev (above ++ k :: below))
    with (rev below ++ rev (above ++ [k])).
  2:{ rewrite (rev_app_distr above (k :: below)). cbn [rev].
      rewrite rev_app_distr. cbn [rev app]. by rewrite <- app_assoc. }
  rewrite closestFrom_found.
  - by rewrite rev_involutive, index_snoc.
  - by rewrite rev_involutive.
  - intros r Hr [pre Hpre]. rewrite rev_app_distr, rev_involutive.
    rewrite <- app_assoc. cbn [app]. apply Hinner.
    + intros Hnil. apply Hr. apply (f_equal (@rev nat)) in Hnil.
      by rewrite rev_involutive in Hnil.
    + exists (rev pre). apply (f_equal (@rev nat)) in Hpre.
      by rewrite rev_involutive, rev_app_distr in Hpre.
Qed.

(** X24.  The row is looked for on the whole way up from the node, and the
    container does not bound the search: for a node of the list view whose
    nearest enclosing [tr] is the [k]-th child element of any element, a
    header row for one, the result is [k + indexFirst - 1] and not
    [null]. *)
Theorem indexOfElement_any_row (lv : ListView) (above : list nat) (k : nat)
  (below : list nat) :
  root lv `prefix_of` above ++ k :: below →
  above ++ k :: below ≠ root lv →
  is_Some (Dom.at_ (above ++ k :: below) (document lv)) →
  Dom.matches (document lv) "tr" (above ++ [k]) = true →
  (∀ inner, inner ≠ [] → inner `prefix_of` below →
     Dom.matches (document lv) "tr" (above ++ k :: inner) = false) →
  indexOfElement lv (above ++ k :: below)
  = Some (Z.of_nat k + indexFirst lv - 1)%Z.
Proof. apply indexOfElement_nearest. Qed.

(** The theorem at the header cell of the sample page, whose row is the
    first child of the [thead] at [0;0;0;1]. *)
Lemma indexOfElement_any_row_witness :
  indexOfElement sampleListView [0; 0; 0; 1; 0; 0]%nat = Some 39%Z.
Proof.
  apply (indexOfElement_any_row sampleListView [0; 0; 0; 1]%nat 0%nat
           [0]%nat).
  - by exists [0; 1; 0; 0]%nat.
  - discriminate.
  - by eexists.
  - reflexivity.
  - intros inner Hne [rest Hrest].
    destruct inner as [|i [|? ?]]; simplify_eq/=; reflexivity.
Defined.

(** X25.  Rows are told apart: two nodes of the list view whose nearest
    enclosing rows are the children [k1] and [k2] of the container get the
    same index exactly when [k1 = k2], and a row one further down gets an
    index one larger. *)
Theorem indexOfElement_rows_apart (lv : ListView) (k1 k2 : nat)
  (below1 below2 : list nat) :
  root lv `prefix_of` container lv →
  is_Some (Dom.at_ (container lv ++ k1 :: below1) (document lv)) →
  is_Some (Dom.at_ (container lv ++ k2 :: below2) (document lv)) →
  Dom.matches (document lv) "tr" (container lv ++ [k1]) = true →
  Dom.matches (document lv) "tr" (container lv ++ [k2]) = true →
  (∀ inner, inner ≠ [] → inner `prefix_of` below1 →
     Dom.matches (document lv) "tr" (container lv ++ k1 :: inner) = false) →
  (∀ inner, inner ≠ [] → inner `prefix_of` below2 →
     Dom.matches (document lv) "tr" (container lv ++ k2 :: inner) = false) →
  (indexOfElement lv (container lv ++ k1 :: below1)
   = indexOfElement lv (container lv ++ k2 :: below2) ↔ k1 = k2)
  ∧ (k2 = S k1 →
     ∃ i, indexOfElement lv (container lv ++ k1 :: below1) = Some i
          ∧ indexOfElement lv (container lv ++ k2 :: below2)
            = Some (i + 1)%Z).
Proof.
  intros [mid Hroot] Hat1 Hat2 Hrow1 Hrow2 Hin1 Hin2.
  assert (∀ k below, root lv `prefix_of` container lv ++ k :: below
                     ∧ container lv ++ k :: below ≠ root lv) as Hinside.
  { intros k below. rewrite Hroot, <- app_assoc. split; [by eexists|].
    intros Heq. apply (f_equal List.length) in Heq.
    rewrite !length_app in Heq. cbn [List.length] in Heq. lia. }
  rewrite (indexOfElement_nearest lv (container lv) k1 below1)
    by (try apply Hinside; done).
  rewrite (indexOfElement_nearest lv (container lv) k2 below2)
    by (try apply Hinside; done).
  split.
  - split; [intros [= H]; lia|by intros ->].
  - intros ->. eexists. split; [done|]. f_equal. lia.
Qed.

(** The theorem on the two materialised rows of the sample page. *)
Lemma indexOfElement_rows_apart_witness :
  ∃ i,
    indexOfElement sampleListView [0; 0; 0; 2; 1; 0; 0]%nat = Some i
    ∧ indexOfElement sampleListView [0; 0; 0; 2; 2]%nat = Some (i + 1)%Z.
Proof.
  apply (indexOfElement_rows_apart sampleListView 1 2 [0; 0]%nat []);
    try reflexivity; try (by eexists).
  - intros inner Hne [rest Hrest].
    destruct inner as [|i [|j [|? ?]]]; simplify_eq/=; reflexivity.
  - intros inner Hne [rest Hrest].
    destruct inner as [|? ?]; simplify_eq/=.
Defined.
